(** * kof-slide: deck discovery, selection and build orchestration

    A shallow embedding of [scripts/build-all.mjs] (the batch builder) and of
    the single-deck dev launcher, together with the properties of the
    specification that concern them.

    JavaScript strings are sequences of UTF-16 code units; the host
    (file system, child processes, console) is a record of primitives over
    an abstract world, and the scripts are written in a small monad that
    threads the world and the trace of observable effects, with exceptions
    and [process.exit]. *)

From Stdlib Require Import List NArith ZArith Ascii String Bool Lia DecimalString.
From stdpp Require Import base option list gmap.
Import ListNotations.

Local Open Scope N_scope.
Local Open Scope list_scope.

(** ** JavaScript strings *)

Module JsString.

(** A UTF-16 code unit. *)
Definition char := N.
Definition jsstring := list char.

Definition ch (a : ascii) : char := N_of_ascii a.

(** An ASCII literal as a JavaScript string. *)
Definition str (s : string) : jsstring := map N_of_ascii (list_ascii_of_string s).
Arguments str : simpl never.

(** ECMAScript LineTerminator: LF, CR, LS (U+2028), PS (U+2029). *)
Definition isLineTerminator (c : char) : bool :=
  (c =? 10) || (c =? 13) || (c =? 8232) || (c =? 8233).

(** ECMAScript WhiteSpace: TAB, VT, FF, SP, NBSP, ZWNBSP and the Zs category. *)
Definition isWhiteSpace (c : char) : bool :=
  (c =? 9) || (c =? 11) || (c =? 12) || (c =? 32) || (c =? 160) || (c =? 65279)
  || (c =? 5760) || ((8192 <=? c) && (c <=? 8202))
  || (c =? 8239) || (c =? 8287) || (c =? 12288).

(** What [\s] matches and what [trim] strips. *)
Definition isSpace (c : char) : bool := isWhiteSpace c || isLineTerminator c.

Fixpoint trimStart (s : jsstring) : jsstring :=
  match s with
  | [] => []
  | c :: s' => if isSpace c then trimStart s' else s
  end.

Definition trim (s : jsstring) : jsstring := rev (trimStart (rev (trimStart s))).

(** [s.includes(c)] for a one-character needle. *)
Definition includes (s : jsstring) (c : char) : bool := existsb (N.eqb c) s.

Fixpoint startsWith (s pre : jsstring) : bool :=
  match pre, s with
  | [], _ => true
  | p :: pre', c :: s' => (c =? p) && startsWith s' pre'
  | _ :: _, [] => false
  end.

Definition endsWith (s suf : jsstring) : bool := startsWith (rev s) (rev suf).

(** [s.split(sep)] for a one-character separator: never an empty array. *)
Fixpoint split (s : jsstring) (sep : char) : list jsstring :=
  match s with
  | [] => [[]]
  | c :: s' =>
      if c =? sep then [] :: split s' sep
      else match split s' sep with
           | seg :: segs => (c :: seg) :: segs
           | [] => [[c]]
           end
  end.

(** [arr.join(sep)] on an array of strings. *)
Fixpoint Array_join (l : list jsstring) (sep : jsstring) : jsstring :=
  match l with
  | [] => []
  | [x] => x
  | x :: rest => x ++ sep ++ Array_join rest sep
  end.

(** JavaScript truthiness of a string: non-empty. *)
Definition truthy (s : jsstring) : bool :=
  match s with [] => false | _ :: _ => true end.

(** [v || d] where [v] is a string or [undefined] ([None]). *)
Definition or_else (v : option jsstring) (d : jsstring) : jsstring :=
  match v with
  | Some s => if truthy s then s else d
  | None => d
  end.

(** [!v] where [v] is a string or [undefined]. *)
Definition falsy (v : option jsstring) : bool :=
  match v with Some s => negb (truthy s) | None => true end.

Definition dq : jsstring := [34].
Definition nl : jsstring := [10].
Definition quoted (s : jsstring) : jsstring := dq ++ s ++ dq.

End JsString.
Import JsString.

(** ** The regular-expression fragment the scripts use

    Patterns without flags [u], [i], [s]: atoms are a literal code unit, [.]
    (anything but a line terminator) and [\s]; an atom may carry a greedy
    [*] or [+]; [^] and [$] are assertions; one capture group that is not
    quantified.  [x+] is read as [xx*], which backtracks in the same order. *)

Module RegExp.

Inductive atom := AChar (c : char) | ADot | ASpace.
Inductive term := TBol | TEol | TAtom (a : atom) | TStar (a : atom) | TOpen | TClose.

(** SyntaxCharacter of the ECMAScript pattern grammar. *)
Definition syntaxChars : jsstring := str "^$\.*+?()[]{}|".
Definition isSyntaxChar (c : char) : bool := existsb (N.eqb c) syntaxChars.

Definition flush (pend : option atom) (ts : list term) : list term :=
  match pend with Some a => TAtom a :: ts | None => ts end.

(** Pattern source to terms.  [pend] is the atom read last, waiting for a
    quantifier; [g] is 0 before the capture group, 1 inside it, 2 after it.
    [None] is a SyntaxError or a construct outside the fragment. *)
Fixpoint parse (g : nat) (pend : option atom) (src : jsstring) : option (list term) :=
  match src with
  | [] => if (g =? 1)%nat then None else Some (flush pend [])
  | c :: rest =>
      if c =? ch "*" then
        match pend with
        | Some a => cons (TStar a) <$> parse g None rest
        | None => None
        end
      else if c =? ch "+" then
        match pend with
        | Some a => (fun ts => TAtom a :: TStar a :: ts) <$> parse g None rest
        | None => None
        end
      else if c =? ch "^" then (fun ts => flush pend (TBol :: ts)) <$> parse g None rest
      else if c =? ch "$" then (fun ts => flush pend (TEol :: ts)) <$> parse g None rest
      else if c =? ch "(" then
        if (g =? 0)%nat then (fun ts => flush pend (TOpen :: ts)) <$> parse 1 None rest
        else None
      else if c =? ch ")" then
        if (g =? 1)%nat then (fun ts => flush pend (TClose :: ts)) <$> parse 2 None rest
        else None
      else if c =? ch "\" then
        match rest with
        | e :: rest' =>
            if isSyntaxChar e then flush pend <$> parse g (Some (AChar e)) rest'
            else if e =? ch "s" then flush pend <$> parse g (Some ASpace) rest'
            else None
        | [] => None
        end
      else if c =? ch "." then flush pend <$> parse g (Some ADot) rest
      else if isSyntaxChar c then None
      else flush pend <$> parse g (Some (AChar c)) rest
  end.

Record regexp := { terms : list term; multiline : bool }.

(** [new RegExp(src)] and a literal [/src/m]. *)
Definition RegExp_new (src : jsstring) (m : bool) : option regexp :=
  (fun ts => {| terms := ts; multiline := m |}) <$> parse 0 None src.

Definition atom_ok (a : atom) (c : char) : bool :=
  match a with
  | AChar x => c =? x
  | ADot => negb (isLineTerminator c)
  | ASpace => isSpace c
  end.

(** [prev] is the code unit before the current position, if any. *)
Definition at_bol (ml : bool) (prev : option char) : bool :=
  match prev with None => true | Some c => ml && isLineTerminator c end.

Definition at_eol (ml : bool) (s : jsstring) : bool :=
  match s with [] => true | c :: _ => ml && isLineTerminator c end.

(** Capture state: the input left when the group opened, and the capture. *)
Record caps := { cap_open : option jsstring; cap_group : option jsstring }.
Definition no_caps : caps := {| cap_open := None; cap_group := None |}.

Definition close_group (cp : caps) (s : jsstring) : caps :=
  match cap_open cp with
  | Some from =>
      {| cap_open := None;
         cap_group := Some (firstn (length from - length s) from) |}
  | None => cp
  end.

(** Backtracking match of [ts] at the current position; greedy stars try
    the longest run first. *)
Fixpoint run (ml : bool) (ts : list term) : option char -> caps -> jsstring -> option caps :=
  match ts with
  | [] => fun _ cp _ => Some cp
  | t :: ts' =>
      let k := run ml ts' in
      match t with
      | TBol => fun prev cp s => if at_bol ml prev then k prev cp s else None
      | TEol => fun prev cp s => if at_eol ml s then k prev cp s else None
      | TAtom a => fun prev cp s =>
          match s with
          | c :: s' => if atom_ok a c then k (Some c) cp s' else None
          | [] => None
          end
      | TStar a =>
          fix star (prev : option char) (cp : caps) (s : jsstring) : option caps :=
            match s with
            | c :: s' =>
                if atom_ok a c then
                  match star (Some c) cp s' with
                  | Some r => Some r
                  | None => k prev cp s
                  end
                else k prev cp s
            | [] => k prev cp s
            end
      | TOpen => fun prev cp s =>
          k prev {| cap_open := Some s; cap_group := cap_group cp |} s
      | TClose => fun prev cp s => k prev (close_group cp s) s
      end
  end.

(** The leftmost match: start positions are tried from left to right. *)
Fixpoint search (ml : bool) (ts : list term) (prev : option char) (s : jsstring) : option caps :=
  match run ml ts prev no_caps s with
  | Some r => Some r
  | None =>
      match s with
      | [] => None
      | c :: s' => search ml ts (Some c) s'
      end
  end.

Definition exec (rx : regexp) (s : jsstring) : option caps :=
  search (multiline rx) (terms rx) None s.

(** [rx.test(s)] *)
Definition test (rx : regexp) (s : jsstring) : bool :=
  match exec rx s with Some _ => true | None => false end.

(** [s.match(rx)?.[1]]: [None] is [undefined]. *)
Definition match_1 (s : jsstring) (rx : regexp) : option jsstring :=
  match exec rx s with Some cp => cap_group cp | None => None end.

End RegExp.

(** ** scripts/build-all.mjs: the pattern matcher *)

Module Matcher.
Import RegExp.

(** The class [[.*+?^${}()|[\]\\]] of the [replace] call. *)
Definition escapeClass : jsstring := str ".*+?^${}()|[]\".

(** [p.replace(/[.*+?^${}()|[\]\\]/g, '\\$&')] *)
Definition escape (p : jsstring) : jsstring :=
  flat_map (fun c => if existsb (N.eqb c) escapeClass then [ch "\"; c] else [c]) p.

(** The source handed to [new RegExp]. *)
Definition source (pattern : jsstring) : jsstring :=
  str "^" ++ Array_join (map escape (split pattern (ch "*"))) (str ".*") ++ str "$".

(** [matches(name, pattern)].  The last branch of the inner [match] stands
    for a [RegExp] constructor that throws; [source_parses] below shows
    that the escaped source always compiles. *)
Definition matches (name pattern : jsstring) : bool :=
  if negb (truthy pattern) then true
  else if includes pattern (ch "*") then
    match RegExp_new (source pattern) false with
    | Some rx => test rx name
    | None => false
    end
  else bool_decide (name = pattern).

End Matcher.
Import Matcher.


(** ** The Node.js host

    Paths and file contents are strings; a thrown [Error] is its message.
    The file system and the renderer are primitives of an abstract world:
    reads are functions of the world, writes and child processes return the
    next world.  A child process is run to its ['close'] event, whose code
    is [None] when the child was ended by a signal. *)

Module Node.

Definition pathname := jsstring.
Definition exn := jsstring.

(** The arguments of [spawn(cmd, args, options)]; [stdio] is always
    ['inherit'].  An argument is [None] when the script passes [null]. *)
Record spawn_call := {
  cmd : jsstring;
  args : list (option jsstring);
  opt_cwd : pathname;
  opt_shell : bool;
  opt_env : gmap jsstring jsstring
}.

(** Observable effects, in the order they complete. *)
Inductive event :=
| Log (line : jsstring)
| Err (line : jsstring)
| Mkdir (p : pathname)
| WriteFile (p : pathname) (data : jsstring)
| Spawn (call : spawn_call) (code : option Z).

Record Host (W : Type) := {
  join : pathname -> jsstring -> pathname;
  existsSync : W -> pathname -> bool;
  readdirSync : W -> pathname -> exn + list jsstring;
(** [statSync(p).isDirectory()] *)
isDirectory : W -> pathname -> exn + bool;
readFileSync : W -> pathname -> exn + jsstring;
mkdirSync : W -> pathname -> exn + W;
writeFileSync : W -> pathname -> jsstring -> exn + W;
spawn : W -> spawn_call -> W * option Z
}.
Arguments join {W}.
Arguments existsSync {W}.
Arguments readdirSync {W}.
Arguments isDirectory {W}.
Arguments readFileSync {W}.
Arguments mkdirSync {W}.
Arguments writeFileSync {W}.
Arguments spawn {W}.

(** The [process] object. *)
Record process := {
  cwd : pathname;
  env : gmap jsstring jsstring;
  argv : list jsstring;
  platform : jsstring
}.

(** *** Fallible reads *)

#[global] Instance exn_ret : MRet (sum exn) := fun A a => inr a.
#[global] Instance exn_bind : MBind (sum exn) := fun A B f m =>
  match m with inl e => inl e | inr a => f a end.
#[global] Instance exn_fmap : FMap (sum exn) := fun A B f m =>
  match m with inl e => inl e | inr a => inr (f a) end.

(** [arr.filter(f)] and [arr.map(f)] with a callback that can throw. *)
Fixpoint filterE {A} (f : A -> exn + bool) (l : list A) : exn + list A :=
  match l with
  | [] => mret []
  | x :: l' => b ← f x; r ← filterE f l'; mret (if b : bool then x :: r else r)
  end.

Fixpoint mapE {A B} (f : A -> exn + B) (l : list A) : exn + list B :=
  match l with
  | [] => mret []
  | x :: l' => y ← f x; r ← mapE f l'; mret (y :: r)
  end.

(** *** Scripts: world and trace, exceptions, [process.exit] *)

Inductive result (A : Type) :=
| Ret (a : A)
| Throw (e : exn)
| Exit (status : Z).
Arguments Ret {A}.
Arguments Throw {A}.
Arguments Exit {A}.

Record state (W : Type) := { world : W; trace : list event }.
Arguments world {W}.
Arguments trace {W}.

Definition M (W A : Type) : Type := state W -> result A * state W.

Section Monad.
Context {W : Type}.

#[global] Instance M_ret : MRet (M W) := fun A a st => (Ret a, st).
#[global] Instance M_bind : MBind (M W) := fun A B f m st =>
  match m st with
  | (Ret a, st') => f a st'
  | (Throw e, st') => (Throw e, st')
  | (Exit c, st') => (Exit c, st')
  end.

Definition throw {A} (e : exn) : M W A := fun st => (Throw e, st).

(** [process.exit(code)]: [null] or [undefined] leaves [process.exitCode],
    which the scripts never set, so the status is 0. *)
Definition process_exit {A} (code : option Z) : M W A :=
  fun st => (Exit (default 0%Z code), st).

Definition emit (e : event) : M W unit :=
  fun st => (Ret tt, {| world := world st; trace := trace st ++ [e] |}).
Definition console_log (line : jsstring) : M W unit := emit (Log line).
Definition console_error (line : jsstring) : M W unit := emit (Err line).

Definition read {A} (f : W -> exn + A) : M W A :=
  fun st => match f (world st) with
            | inl e => (Throw e, st)
            | inr a => (Ret a, st)
            end.

Definition write (f : W -> exn + W) (e : event) : M W unit :=
  fun st => match f (world st) with
            | inl err => (Throw err, st)
            | inr w' => (Ret tt, {| world := w'; trace := trace st ++ [e] |})
            end.

(** [spawn(...)] followed to the child's ['close'] event. *)
Definition spawn_child (H : Host W) (call : spawn_call) : M W (option Z) :=
  fun st => let (w', code) := spawn H (world st) call in
            (Ret code, {| world := w'; trace := trace st ++ [Spawn call code] |}).

(** [try { m } catch (err) { h(err.message) }] *)
Definition try_catch {A} (m : M W A) (h : exn -> M W A) : M W A :=
  fun st => match m st with
            | (Throw e, st') => h e st'
            | r => r
            end.

(** [for (const x of l) await f(x)] *)
Fixpoint for_of {A} (l : list A) (f : A -> M W unit) : M W unit :=
  match l with
  | [] => mret tt
  | x :: l' => f x;; for_of l' f
  end.

(** [arr.map(f)] with an effectful callback. *)
Fixpoint mapM {A B} (f : A -> M W B) (l : list A) : M W (list B) :=
  match l with
  | [] => mret []
  | x :: l' => y ← f x; r ← mapM f l'; mret (y :: r)
  end.
End Monad.

(** What a finished script leaves behind.  A script that runs off its end
    exits with 0; an uncaught exception is reported on the diagnostic
    stream (the report is cut down to the message) and exits with 1. *)
Record outcome (W : Type) := { status : Z; final : state W }.
Arguments status {W}.
Arguments final {W}.

Definition run_script {W} (m : M W unit) (w : W) : outcome W :=
  match m {| world := w; trace := [] |} with
  | (Ret _, st) => {| status := 0; final := st |}
  | (Exit c, st) => {| status := c; final := st |}
  | (Throw e, st) =>
      {| status := 1;
         final := {| world := world st; trace := trace st ++ [Err (str "Uncaught Error: " ++ e)] |} |}
  end.

(** Decimal rendering of a number in a template string. *)
Definition show_Z (z : Z) : jsstring := str (DecimalString.NilZero.string_of_int (Z.to_int z)).
(** [String(v)] for a value that may be [null]. *)
Definition show_null (v : option jsstring) : jsstring := default (str "null") v.

End Node.
Import Node.

(** ** scripts/build-all.mjs *)

Module BuildAll.
Import RegExp.

Record Deck := { name : jsstring; path : pathname; entry : option jsstring }.

Definition candidates : list jsstring :=
  [str "slides.md"; str "index.md"; str "deck.md"; str "presentation.md"].

Definition NODE_OPTIONS : jsstring := str "NODE_OPTIONS".

(** [/^\s*title:\s*(.+)\s*$/m] *)
Definition title_rx : regexp :=
  {| terms := [TBol; TStar ASpace;
               TAtom (AChar (ch "t")); TAtom (AChar (ch "i")); TAtom (AChar (ch "t"));
               TAtom (AChar (ch "l")); TAtom (AChar (ch "e")); TAtom (AChar (ch ":"));
               TStar ASpace; TOpen; TAtom ADot; TStar ADot; TClose; TStar ASpace; TEol];
     multiline := true |}.

(** [/^#\s+(.+)$/m] *)
Definition h1_rx : regexp :=
  {| terms := [TBol; TAtom (AChar (ch "#")); TAtom ASpace; TStar ASpace;
               TOpen; TAtom ADot; TStar ADot; TClose; TEol];
     multiline := true |}.

(** The title the index shows for a document that was read. *)
Definition extract_title (raw dname : jsstring) : jsstring :=
  let fmTitle := trim <$> match_1 raw title_rx in
  let h1 := trim <$> match_1 raw h1_rx in
  or_else fmTitle (or_else h1 dname).

(** [(v ?? '').split(',').map((s) => s.trim()).filter(Boolean)] *)
Definition pattern_list (v : option jsstring) : list jsstring :=
  List.filter truthy (map trim (split (default [] v) (ch ","))).

Definition item (dname title : jsstring) : jsstring :=
  str "<li><a href=" ++ quoted (str "./" ++ dname ++ str "/") ++ str ">"
    ++ title ++ str "</a></li>".

Definition html (items : jsstring) : jsstring :=
  Array_join
    [ str "<!doctype html>";
      str "<html lang=" ++ quoted (str "en") ++ str ">";
      str "<meta charset=" ++ quoted (str "utf-8") ++ str ">";
      str "<meta name=" ++ quoted (str "viewport") ++ str " content="
        ++ quoted (str "width=device-width, initial-scale=1") ++ str ">";
      str "<title>Decks</title>";
      str "<style>";
      str "  body { font-family: system-ui; margin: 2rem; }";
      str "  h1 { font-size: 1.5rem; margin-bottom: 1rem; }";
      str "  ul { display: grid; gap: .5rem; padding: 0; list-style: none; }";
      str "  a { text-decoration: none; padding: .75rem 1rem; border: 1px solid #ddd; border-radius: .75rem; display: block; }";
      str "  a:hover { background: #fafafa; }";
      str "</style>";
      str "<h1>Decks</h1>";
      str "<ul>";
      items;
      str "</ul>";
      str "</html>" ] nl.

Section Script.
Context {W : Type} (H : Host W) (P : process).

Definition ROOT : pathname := cwd P.
Definition SLIDES_DIR : pathname := join H ROOT (str "slides").
Definition DIST_DIR : pathname := join H ROOT (str "dist").

Definition ONLY : list jsstring := pattern_list (env P !! str "SLIDE_DECKS").
Definition SKIP : list jsstring := pattern_list (env P !! str "SKIP_DECKS").

(** [findEntry(deckPath)]: the loop over [candidates] returns at the
    first one that exists. *)
Definition findEntry (w : W) (deckPath : pathname) : exn + option jsstring :=
  match List.find (fun c => existsSync H w (join H deckPath c)) candidates with
  | Some c => mret (Some c)
  | None =>
      files ← readdirSync H w deckPath;
      mret (head (List.filter (fun f => endsWith f (str ".md")) files))
  end.

Section Selection.
(** The two pattern lists; the script takes them from the environment. *)
Variables only skip : list jsstring.

Definition shouldSkip (name : jsstring) : bool := existsb (matches name) skip.
Definition isOnly (name : jsstring) : bool :=
  (length only =? 0)%nat || existsb (matches name) only.

(** The callback of [readdirSync(SLIDES_DIR).filter(...)]; [&&] stops
    at the first false operand. *)
Definition keep (w : W) (name : jsstring) : exn + bool :=
  let p := join H SLIDES_DIR name in
  d ← isDirectory H w p;
  if d && negb (startsWith name (str ".")) && negb (startsWith name (str "_"))
     && isOnly name && negb (shouldSkip name)
  then e ← findEntry w p; mret (bool_decide (e <> None))
  else mret false.

Definition discoverDecks : M W (list Deck) :=
  present ← read (fun w => mret (existsSync H w SLIDES_DIR));
  if negb present then
    console_error (str "No slides/ directory found.");;
    process_exit (Some 1%Z)
  else
    read (fun w =>
      names ← readdirSync H w SLIDES_DIR;
      dirs ← filterE (keep w) names;
      mapE (fun name =>
              e ← findEntry w (join H SLIDES_DIR name);
              mret {| name := name; path := join H SLIDES_DIR name; entry := e |})
           dirs).
End Selection.

(** The [env] option of [run]. *)
Definition child_env (extraEnv : gmap jsstring jsstring) : gmap jsstring jsstring :=
  extraEnv ∪
  <[NODE_OPTIONS := or_else (env P !! NODE_OPTIONS) (str "--max_old_space_size=4096")]>
    (env P).

Definition show_code (code : option Z) : jsstring :=
  match code with Some z => show_Z z | None => str "null" end.

Definition run (cmd : jsstring) (args : list (option jsstring)) (cwd : pathname)
    (extraEnv : gmap jsstring jsstring) : M W unit :=
  code ← spawn_child H
    {| cmd := cmd; args := args; opt_cwd := cwd;
       opt_shell := bool_decide (platform P = str "win32");
       opt_env := child_env extraEnv |};
  if bool_decide (code = Some 0%Z) then mret tt
  else throw (cmd ++ str " " ++ Array_join (map (default []) args) (str " ")
                  ++ str " failed with " ++ show_code code).

Definition build_args (d : Deck) : list (option jsstring) :=
  [Some (str "-y"); Some (str "slidev"); Some (str "build"); entry d;
   Some (str "--base"); Some (str "/" ++ name d ++ str "/");
   Some (str "--out"); Some (join H DIST_DIR (name d))].

Definition buildDeck (d : Deck) : M W unit :=
  let outDir := join H DIST_DIR (name d) in
  let base := str "/" ++ name d ++ str "/" in
  console_log (nl ++ [9654; 65038] ++ str " Building deck: " ++ name d);;
  console_log (str "   entry: " ++ show_null (entry d));;
  console_log (str "   out:   " ++ outDir);;
  console_log (str "   base:  " ++ base);;
  write (fun w => mkdirSync H w outDir) (Mkdir outDir);;
  run (str "npx") (build_args d) (path d) ∅;;
  console_log ([10003] ++ str " Built " ++ name d).

(** The body of the [map] callback in [generateIndex]; a failed read
    leaves [title] at the deck's name. *)
Definition deck_title (d : Deck) : M W jsstring :=
  try_catch
    (raw ← read (fun w =>
              match entry d with
              | Some e => readFileSync H w (join H (path d) e)
              | None => inl (str "ERR_INVALID_ARG_TYPE")
              end);
     mret (extract_title raw (name d)))
    (fun _ => mret (name d)).

Definition index_path : pathname := join H DIST_DIR (str "index.html").

Definition generateIndex (decks : list Deck) : M W unit :=
  write (fun w => mkdirSync H w DIST_DIR) (Mkdir DIST_DIR);;
  lines ← mapM (fun d => title ← deck_title d; mret (item (name d) title)) decks;
  let page := html (Array_join lines nl) in
  write (fun w => writeFileSync H w index_path page) (WriteFile index_path page);;
  console_log ([10003] ++ str " Wrote dist/index.html").

Definition main : M W unit :=
  try_catch
    (decks ← discoverDecks ONLY SKIP;
     if (length decks =? 0)%nat then
       console_log (str "No decks found under slides/*");;
       process_exit (Some 0%Z)
     else
       console_log (str "Found " ++ show_Z (Z.of_nat (length decks)) ++ str " deck(s): "
                      ++ Array_join (map name decks) (str ", "));;
       write (fun w => mkdirSync H w DIST_DIR) (Mkdir DIST_DIR);;
       for_of decks buildDeck;;
       generateIndex decks;;
       console_log (nl ++ [9989] ++ str " All decks built."))
    (fun message =>
       console_error (nl ++ [10060] ++ str " Build failed: " ++ message);;
       process_exit (Some 1%Z)).
End Script.

End BuildAll.

(** ** The dev launcher *)

Module Dev.

Definition candidates : list jsstring :=
  [str "slides.md"; str "index.md"; str "deck.md"; str "presentation.md"].

Section Script.
Context {W : Type} (H : Host W) (P : process).

Definition ROOT : pathname := cwd P.
Definition SLIDES_DIR : pathname := join H ROOT (str "slides").

(** [process.argv[2] || process.env.DECK] *)
Definition deckName : option jsstring :=
  if falsy (argv P !! 2%nat) then env P !! str "DECK" else argv P !! 2%nat.

Definition serve_call (deckPath : pathname) (entry : jsstring) : spawn_call :=
  {| cmd := str "npx";
     args := [Some (str "-y"); Some (str "slidev"); Some (join H deckPath entry)];
     opt_cwd := ROOT;
     opt_shell := bool_decide (platform P = str "win32");
     opt_env := env P |}.

Definition script : M W unit :=
  if falsy deckName then
    console_error ([10060] ++ str " Please specify a deck name, e.g.: npm run dev -- this-name");;
    process_exit (Some 1%Z)
  else
    let deckName := default [] deckName in
    let deckPath := join H SLIDES_DIR deckName in
    present ← read (fun w => mret (existsSync H w deckPath));
    if negb present then
      console_error ([10060] ++ str " Deck folder not found: " ++ deckPath);;
      process_exit (Some 1%Z)
    else
      found ← read (fun w =>
                 mret (List.find (fun f => existsSync H w (join H deckPath f)) candidates));
      entry ← (if falsy found then
                 md ← read (fun w =>
                          List.find (fun f => endsWith f (str ".md"))
                            <$> readdirSync H w deckPath);
                 if falsy md then
                   console_error ([10060] ++ str " No markdown entry file found in " ++ deckPath);;
                   process_exit (Some 1%Z)
                 else mret (default [] md)
               else mret (default [] found) : M W jsstring);
      console_log ([9654; 65038] ++ str " Starting dev server for deck "
                     ++ quoted deckName ++ str " (entry: " ++ entry ++ str ")");;
      code ← spawn_child H (serve_call deckPath entry);
      process_exit code.
End Script.

End Dev.

(** ** A small concrete host

    A flat table from path to node, [join] by a slash, a renderer given by
    its exit code for each call.  Used to run the scripts on examples. *)

Module Sim.

Inductive node := File (data : jsstring) | Dir (entries : list jsstring).
Definition fs := list (pathname * node).

Fixpoint lookup (w : fs) (p : pathname) : option node :=
  match w with
  | [] => None
  | (q, n) :: w' => if bool_decide (q = p) then Some n else lookup w' p
  end.

Definition enoent : exn := str "ENOENT: no such file or directory".

Definition host (render : spawn_call -> option Z) : Host fs :=
  {| join := fun a b => a ++ str "/" ++ b;
     existsSync := fun w p => match lookup w p with Some _ => true | None => false end;
     readdirSync := fun w p =>
       match lookup w p with
       | Some (Dir es) => inr es
       | Some (File _) => inl (str "ENOTDIR: not a directory")
       | None => inl enoent
       end;
     isDirectory := fun w p =>
       match lookup w p with
       | Some (Dir _) => inr true
       | Some (File _) => inr false
       | None => inl enoent
       end;
     readFileSync := fun w p =>
       match lookup w p with
       | Some (File d) => inr d
       | Some (Dir _) => inl (str "EISDIR: illegal operation on a directory")
       | None => inl enoent
       end;
     mkdirSync := fun w p =>
       inr (match lookup w p with Some _ => w | None => (p, Dir []) :: w end);
     writeFileSync := fun w p d => inr ((p, File d) :: w);
     spawn := fun w call => (w, render call) |}.

Definition proc (e : gmap jsstring jsstring) (argv : list jsstring) : process :=
  {| cwd := str "/repo"; env := e; argv := argv; platform := str "linux" |}.

(** A deck directory with one file. *)
Definition deck (dname file : string) (data : jsstring) : fs :=
  [ (str "/repo/slides/" ++ str dname, Dir [str file]);
    (str "/repo/slides/" ++ str dname ++ str "/" ++ str file, File data) ].

(** [slides/] with one directory per name, each holding [slides.md]. *)
Definition slides (dnames : list string) (data : jsstring) : fs :=
  (str "/repo/slides", Dir (map str dnames))
    :: flat_map (fun d => deck d "slides.md" data) dnames.

Definition deck_record (dname : string) : BuildAll.Deck :=
  {| BuildAll.name := str dname;
     BuildAll.path := str "/repo/slides/" ++ str dname;
     BuildAll.entry := Some (str "slides.md") |}.

Definition start (w : fs) : state fs := {| world := w; trace := [] |}.

Definition always (code : option Z) : spawn_call -> option Z := fun _ => code.

(** A renderer that fails with [code] in the directory of one deck. *)
Definition fails_in (dname : string) (code : option Z) : spawn_call -> option Z :=
  fun call =>
    if bool_decide (opt_cwd call = str "/repo/slides/" ++ str dname) then code
    else Some 0%Z.

End Sim.

(** ** Specification-side notions for the matcher *)

Module MatcherSpec.
Import RegExp.

(** The name is the pattern's literal segments, in order, with a run of
    characters accepted by [gap_ok] between two consecutive segments. *)
Inductive decomposes (gap_ok : char -> Prop) : list jsstring -> jsstring -> Prop :=
| dec_last seg : decomposes gap_ok [seg] seg
| dec_cons seg gap segs rest :
    Forall gap_ok gap ->
    decomposes gap_ok segs rest ->
    decomposes gap_ok (seg :: segs) (seg ++ gap ++ rest).

Definition any_char (c : char) : Prop := True.
Definition not_terminator (c : char) : Prop := isLineTerminator c = false.

Definition lits (seg : jsstring) : list term := map (fun c => TAtom (AChar c)) seg.

(** The terms of [seg0.*seg1.* ... segk]. *)
Fixpoint compiled (segs : list jsstring) : list term :=
  match segs with
  | [] => []
  | [x] => lits x
  | x :: rest => lits x ++ TStar ADot :: compiled rest
  end.

End MatcherSpec.
Import MatcherSpec.

(** ** Auxiliary notions for the two scripts *)

Module DevSpec.
Section Messages.
Definition no_name_message : jsstring :=
  [10060] ++ str " Please specify a deck name, e.g.: npm run dev -- this-name".

Definition no_folder_message (deckPath : pathname) : jsstring :=
  [10060] ++ str " Deck folder not found: " ++ deckPath.

Definition no_entry_message (deckPath : pathname) : jsstring :=
  [10060] ++ str " No markdown entry file found in " ++ deckPath.

Definition starting_message (deckName entry : jsstring) : jsstring :=
  [9654; 65038] ++ str " Starting dev server for deck "
    ++ quoted deckName ++ str " (entry: " ++ entry ++ str ")".
End Messages.
End DevSpec.

Module BatchSpec.
Import BuildAll.

(** The child processes of a trace, and the files written, in order. *)
Definition spawns (tr : list event) : list (spawn_call * option Z) :=
  omap (fun e => match e with Spawn c k => Some (c, k) | _ => None end) tr.

Definition writes (tr : list event) : list (pathname * jsstring) :=
  omap (fun e => match e with WriteFile p d => Some (p, d) | _ => None end) tr.

(** The message of the [Error] with which [run] rejects. *)
Definition failure_message (call : spawn_call) (code : option Z) : jsstring :=
  cmd call ++ str " " ++ Array_join (map (default []) (args call)) (str " ")
    ++ str " failed with " ++ show_code code.

(** The line the main function logs after discovery. *)
Definition found_message (decks : list Deck) : jsstring :=
  str "Found " ++ show_Z (Z.of_nat (length decks)) ++ str " deck(s): "
    ++ Array_join (map name decks) (str ", ").

(** What the [catch] of the main function prints. *)
Definition build_failed (message : jsstring) : event :=
  Err (nl ++ [10060] ++ str " Build failed: " ++ message).

Section Listing.
Context {W : Type} (H : Host W) (P : process).

(** The renderer call [buildDeck] makes for a deck. *)
Definition build_call (d : Deck) : spawn_call :=
  {| cmd := str "npx"; args := build_args H P d; opt_cwd := path d;
     opt_shell := bool_decide (platform P = str "win32");
     opt_env := child_env P ∅ |}.

(** The title [generateIndex] shows for a deck in a given world. *)
Definition title_in (w : W) (d : Deck) : jsstring :=
  match entry d with
  | Some e =>
      match readFileSync H w (join H (path d) e) with
      | inr raw => extract_title raw (name d)
      | inl _ => name d
      end
  | None => name d
  end.

(** A build that ended with code 0. *)
Definition ok_build (d : Deck) : spawn_call * option Z := (build_call d, Some 0%Z).

(** The page [generateIndex] writes, with the titles read in [w]. *)
Definition page_in (w : W) (decks : list Deck) : jsstring :=
  html (Array_join (map (fun d => item (name d) (title_in w d)) decks) nl).

(** The exit through the [catch] of the main function. *)
Definition failed (st : state W) (message : jsstring) : outcome W :=
  {| status := 1;
     final := {| world := world st; trace := trace st ++ [build_failed message] |} |}.

(** The body of [discoverDecks] once [slides/] is known to exist. *)
Definition listing (only skip : list jsstring) (w : W) : exn + list Deck :=
  names ← readdirSync H w (SLIDES_DIR H P);
  dirs ← filterE (keep H P only skip w) names;
  mapE (fun name =>
          e ← findEntry H w (join H (SLIDES_DIR H P) name);
          mret {| name := name; path := join H (SLIDES_DIR H P) name; entry := e |})
       dirs.
End Listing.

Definition selected (only skip : list jsstring) (n : jsstring) : bool :=
  isOnly only n && negb (shouldSkip skip n).

(** The specification's rule: the include list is empty or the name
    matches one of its patterns, and the name matches no exclude pattern. *)
Definition Retained (only skip : list jsstring) (n : jsstring) : Prop :=
  (only = [] \/ Exists (fun p => matches n p = true) only)
  /\ ~ Exists (fun p => matches n p = true) skip.

#[global] Instance Retained_dec only skip n : Decision (Retained only skip n).
Proof. unfold Retained. apply _. Defined.

End BatchSpec.

(** ** The title rule as the specification words it

    Line by line: the first line of the form [title: <value>], else the
    first line of the form [# <value>], else the directory name.  Blanks
    around the key and the value do not count, and a value must not be
    empty. *)

Module TitleSpec.

(** The lines of a document: every line terminator ends one. *)
Fixpoint lines (raw : jsstring) : list jsstring :=
  match raw with
  | [] => [[]]
  | c :: raw' =>
      if isLineTerminator c then [] :: lines raw'
      else match lines raw' with
           | l :: ls => (c :: l) :: ls
           | [] => [[c]]
           end
  end.

Definition value_of (rest : jsstring) : option jsstring :=
  if truthy (trim rest) then Some (trim rest) else None.

(** [title: <value>] *)
Definition title_line (line : jsstring) : option jsstring :=
  let l := trimStart line in
  if startsWith l (str "title:") then value_of (drop 6 l) else None.

(** [# <value>] *)
Definition heading_line (line : jsstring) : option jsstring :=
  match line with
  | c :: s :: rest =>
      if (c =? ch "#") && isSpace s then value_of rest else None
  | _ => None
  end.

Fixpoint first_value (f : jsstring -> option jsstring) (ls : list jsstring) : option jsstring :=
  match ls with
  | [] => None
  | l :: ls' => match f l with Some v => Some v | None => first_value f ls' end
  end.

Definition spec_title (raw dname : jsstring) : jsstring :=
  match first_value title_line (lines raw) with
  | Some v => v
  | None =>
      match first_value heading_line (lines raw) with
      | Some v => v
      | None => dname
      end
  end.

(** A document given by its lines. *)
Definition doc (ls : list string) : jsstring := Array_join (map str ls) nl.

End TitleSpec.

(** ** Example inputs *)

Module Inputs.
Import TitleSpec.

Definition three_talks : Sim.fs :=
  Sim.slides ["talk1"; "talk2"; "talk3"]%string (str "title: My Talk").

Definition hidden_deck : Sim.fs :=
  (str "/repo/slides", Sim.Dir [str "_draft"]) :: Sim.deck "_draft" "slides.md" [].

Definition hidden_proc : process :=
  Sim.proc ∅ [str "node"; str "dev.mjs"; str "_draft"].

Definition talk_proc : process :=
  Sim.proc ∅ [str "node"; str "dev.mjs"; str "talk1"].

(** A directory name with a line feed in it, and [slides/] holding a
    deck of that name. *)
Definition line_feed_name : jsstring := [97; 10; 98].

Definition line_feed_deck : Sim.fs :=
  [ (str "/repo/slides", Sim.Dir [line_feed_name]);
    (str "/repo/slides/" ++ line_feed_name, Sim.Dir [str "slides.md"]);
    (str "/repo/slides/" ++ line_feed_name ++ str "/slides.md", Sim.File []) ].

(** A front matter whose [title:] has no value. *)
Definition empty_title : jsstring :=
  doc ["---"; "title:"; "theme: seriph"; "---"; ""; "# Hello"]%string.

End Inputs.

(** ** Notions for the further properties *)

Module MoreSpec.
Import BuildAll.

(** A string without blanks at either end. *)
Definition trimmed (s : jsstring) : Prop := trim s = s.

(** An environment value that names no pattern: unset, or made of blanks
    and commas only. *)
Definition blank (v : option jsstring) : Prop :=
  match v with
  | None => True
  | Some s => Forall (fun c => isSpace c = true \/ c = ch ",") s
  end.

(** A pattern as [pattern_list] hands it to the matcher. *)
Definition clean_pattern (p : jsstring) : Prop :=
  p <> [] /\ trimmed p /\ includes p (ch ",") = false.

(** A term that does not touch the capture state. *)
Definition plain (t : RegExp.term) : Prop :=
  match t with RegExp.TOpen | RegExp.TClose => False | _ => True end.

(** The same process started with [n] as its only argument. *)
Definition with_argument (P : process) (n : jsstring) : process :=
  {| cwd := cwd P; env := env P;
     argv := [str "node"; str "dev.mjs"; n]; platform := platform P |}.

(** An event that changes no file. *)
Definition harmless (e : event) : Prop :=
  match e with Mkdir _ | WriteFile _ _ => False | _ => True end.

Section Traces.
Context {W : Type} (H : Host W) (P : process).

(** What one successful [buildDeck] adds to the trace. *)
Definition deck_events (d : Deck) : list event :=
  [ Log (nl ++ [9654; 65038] ++ str " Building deck: " ++ name d);
    Log (str "   entry: " ++ show_null (entry d));
    Log (str "   out:   " ++ join H (DIST_DIR H P) (name d));
    Log (str "   base:  " ++ str "/" ++ name d ++ str "/");
    Mkdir (join H (DIST_DIR H P) (name d));
    Spawn (BatchSpec.build_call H P d) (Some 0%Z);
    Log ([10003] ++ str " Built " ++ name d) ].

(** The trace of a batch run in which everything succeeds. *)
Definition success_trace (decks : list Deck) (page : jsstring) : list event :=
  [Log (BatchSpec.found_message decks); Mkdir (DIST_DIR H P)]
    ++ concat (map deck_events decks)
    ++ [ Mkdir (DIST_DIR H P);
         WriteFile (index_path H P) page;
         Log ([10003] ++ str " Wrote dist/index.html");
         Log (nl ++ [9989] ++ str " All decks built.") ].

(** A host on which directories can always be made, files always be
    written, and the renderer always ends with code 0. *)
Definition obliging : Prop :=
  (forall w p, exists w', mkdirSync H w p = inr w')
  /\ (forall w p data, exists w', writeFileSync H w p data = inr w')
  /\ (forall w call, snd (spawn H w call) = Some 0%Z).
End Traces.

End MoreSpec.
Example matches_draft_intro : matches (str "draft-intro") (str "draft-*") = true.
Proof. vm_compute. reflexivity. Qed.
Example matches_draft_dash : matches (str "draft-") (str "draft-*") = true.
Proof. vm_compute. reflexivity. Qed.
Example matches_my_draft : matches (str "my-draft-intro") (str "draft-*") = false.
Proof. vm_compute. reflexivity. Qed.
Example matches_dot_literal : matches (str "aXb") (str "a.b*") = false.
Proof. vm_compute. reflexivity. Qed.
Example matches_specials : matches (str "a.b(c)[d]\e+") (str "a.b(c)*\e+") = true.
Proof. vm_compute. reflexivity. Qed.
Example matches_identical : matches (str "draft") (str "draft") = true.
Proof. vm_compute. reflexivity. Qed.
(** The two patterns of [generateIndex] are the literals of the source. *)
Example title_rx_literal :
  RegExp.RegExp_new (str "^\s*title:\s*(.+)\s*$") true = Some BuildAll.title_rx.
Proof. vm_compute. reflexivity. Qed.
Example h1_rx_literal :
  RegExp.RegExp_new (str "^#\s+(.+)$") true = Some BuildAll.h1_rx.
Proof. vm_compute. reflexivity. Qed.

(** ** Properties of the matcher *)

Module MatcherFacts.
Import RegExp.

Lemma escapeClass_syntax c : existsb (N.eqb c) escapeClass = isSyntaxChar c.
Proof.
  unfold isSyntaxChar.
  change escapeClass with [46; 42; 43; 63; 94; 36; 123; 125; 40; 41; 124; 91; 93; 92].
  change syntaxChars with [94; 36; 92; 46; 42; 43; 63; 40; 41; 91; 93; 123; 125; 124].
  cbn [existsb].
  repeat match goal with
         | |- context [N.eqb c ?k] => destruct (N.eqb_spec c k) as [->|_]; [reflexivity|]
         end.
  reflexivity.
Qed.

Ltac not_syntax H c a :=
  destruct (N.eqb_spec c (ch a)) as [->|_]; [vm_compute in H; discriminate|].

Lemma parse_literal g pend c rest :
  isSyntaxChar c = false ->
  parse g pend (c :: rest) = flush pend <$> parse g (Some (AChar c)) rest.
Proof.
  intros H. cbn [parse].
  not_syntax H c "*"%char. not_syntax H c "+"%char. not_syntax H c "^"%char.
  not_syntax H c "$"%char. not_syntax H c "("%char. not_syntax H c ")"%char.
  not_syntax H c "\"%char. not_syntax H c "."%char.
  now rewrite H.
Qed.

Lemma parse_escaped g pend c rest :
  isSyntaxChar c = true ->
  parse g pend (ch "\" :: c :: rest) = flush pend <$> parse g (Some (AChar c)) rest.
Proof.
  intros H. cbn [parse].
  repeat match goal with
         | |- context [N.eqb (ch ?a) (ch ?b)] =>
             let v := eval vm_compute in (N.eqb (ch a) (ch b)) in
             change (N.eqb (ch a) (ch b)) with v
         end.
  cbn iota. now rewrite H.
Qed.

Lemma parse_segment seg rest ts :
  (forall pend, parse 0 pend rest = Some (flush pend ts)) ->
  forall pend, parse 0 pend (escape seg ++ rest) = Some (flush pend (lits seg ++ ts)).
Proof.
  intros Hrest. induction seg as [|c seg IH]; intros pend; [apply Hrest|].
  unfold escape. cbn [flat_map]. fold (escape seg).
  rewrite escapeClass_syntax. destruct (isSyntaxChar c) eqn:E; cbn [app].
  - rewrite parse_escaped, IH by done. reflexivity.
  - rewrite parse_literal, IH by done. reflexivity.
Qed.

Lemma parse_dotstar more ts :
  parse 0 None more = Some ts ->
  forall pend, parse 0 pend (str ".*" ++ more) = Some (flush pend (TStar ADot :: ts)).
Proof.
  intros H pend. change (str ".*" ++ more) with (ch "." :: ch "*" :: more).
  cbn [parse].
  repeat match goal with
         | |- context [N.eqb (ch ?a) (ch ?b)] =>
             let v := eval vm_compute in (N.eqb (ch a) (ch b)) in
             change (N.eqb (ch a) (ch b)) with v
         end.
  cbn iota. rewrite H. reflexivity.
Qed.

Lemma parse_dollar pend : parse 0 pend (str "$") = Some (flush pend [TEol]).
Proof. reflexivity. Qed.

Lemma parse_joined segs :
  segs <> [] ->
  forall pend,
    parse 0 pend (Array_join (map escape segs) (str ".*") ++ str "$")
    = Some (flush pend (compiled segs ++ [TEol])).
Proof.
  induction segs as [|x rest IH]; [done|]. intros _ pend.
  destruct rest as [|y rest].
  - cbn [map Array_join compiled]. apply parse_segment, parse_dollar.
  - change (compiled (x :: y :: rest)) with (lits x ++ TStar ADot :: compiled (y :: rest)).
    change (Array_join (map escape (x :: y :: rest)) (str ".*"))
      with (escape x ++ str ".*" ++ Array_join (map escape (y :: rest)) (str ".*")).
    rewrite <- !app_assoc. cbn [app].
    apply parse_segment. intros pend'. apply parse_dotstar.
    rewrite (IH ltac:(done) None). reflexivity.
Qed.

Lemma split_nonempty s sep : split s sep <> [].
Proof.
  induction s as [|c s IH]; cbn [split]; [done|].
  destruct (c =? sep); [done|]. destruct (split s sep); done.
Qed.

(** The escaped source always compiles, to the expected terms. *)
Lemma source_parses pattern :
  RegExp_new (source pattern) false
  = Some {| terms := TBol :: compiled (split pattern (ch "*")) ++ [TEol];
            multiline := false |}.
Proof.
  unfold RegExp_new, source.
  change (str "^" ++ ?x) with (ch "^" :: x).
  cbn [parse].
  repeat match goal with
         | |- context [N.eqb (ch ?a) (ch ?b)] =>
             let v := eval vm_compute in (N.eqb (ch a) (ch b)) in
             change (N.eqb (ch a) (ch b)) with v
         end.
  cbn iota. rewrite parse_joined by apply split_nonempty. reflexivity.
Qed.

(** *** What the compiled terms accept *)

Section Run.
Variable ml : bool.
Variable ts : list term.
Variable Q : jsstring -> Prop.
Hypothesis HQ : forall prev cp s, is_Some (run ml ts prev cp s) <-> Q s.

Lemma run_lits seg prev cp s :
  is_Some (run ml (lits seg ++ ts) prev cp s) <-> exists s', s = seg ++ s' /\ Q s'.
Proof.
  revert prev s. induction seg as [|c seg IH]; intros prev s.
  - cbn [lits map app]. rewrite HQ. split; [intros; exists s; done|].
    intros (s' & -> & ?); done.
  - cbn [lits map app run]. fold (lits seg). destruct s as [|d s].
    + split; [intros [? ?]; done | intros (s' & ? & _); done].
    + cbn [atom_ok]. destruct (N.eqb_spec d c) as [->|Hne].
      * rewrite IH. split; intros (s' & E & ?); exists s'; split; try done.
        -- by rewrite E.
        -- by injection E.
      * split; [intros [? ?]; done|]. intros (s' & E & _). by injection E.
Qed.

Lemma run_star_unfold a prev cp s :
  run ml (TStar a :: ts) prev cp s =
  match s with
  | c :: s' =>
      if atom_ok a c then
        match run ml (TStar a :: ts) (Some c) cp s' with
        | Some r => Some r
        | None => run ml ts prev cp s
        end
      else run ml ts prev cp s
  | [] => run ml ts prev cp s
  end.
Proof. destruct s; reflexivity. Qed.

Lemma run_dotstar prev cp s :
  is_Some (run ml (TStar ADot :: ts) prev cp s)
  <-> exists gap s', s = gap ++ s' /\ Forall not_terminator gap /\ Q s'.
Proof.
  revert prev. induction s as [|c s IH]; intros prev; rewrite run_star_unfold.
  - rewrite HQ. split.
    + intros H. exists [], []. done.
    + intros (gap & s' & E & _ & H). symmetry in E.
      apply app_eq_nil in E as [_ ->]. done.
  - cbn [atom_ok]. destruct (isLineTerminator c) eqn:E; cbn [negb].
    + rewrite HQ. split.
      * intros H. exists [], (c :: s). done.
      * intros (gap & s' & Es & Hgap & H). destruct gap as [|g gap].
        -- cbn in Es. by subst.
        -- injection Es as -> _. apply Forall_cons in Hgap as [Hg _].
           unfold not_terminator in Hg. congruence.
    + specialize (IH (Some c)).
      destruct (run ml (TStar ADot :: ts) (Some c) cp s) as [r|].
      * split; [intros _ | by eauto].
        destruct IH as [IH _]. destruct (IH ltac:(eauto)) as (gap & s' & -> & Hgap & H).
        exists (c :: gap), s'. repeat split; try done. by constructor.
      * rewrite HQ. split.
        -- intros H. exists [], (c :: s). done.
        -- intros (gap & s' & Es & Hgap & H). destruct gap as [|g gap].
           ++ cbn in Es. by subst.
           ++ injection Es as -> ->. apply Forall_cons in Hgap as [_ Hgap].
              destruct IH as [_ IH]. destruct IH as [? ?]; [by eauto | done].
Qed.
End Run.

Lemma run_eol prev cp s : is_Some (run false [TEol] prev cp s) <-> s = [].
Proof. destruct s; cbn; split; try done; by eauto. Qed.

Lemma decomposes_single gap_ok seg s : decomposes gap_ok [seg] s <-> s = seg.
Proof.
  split; [|intros ->; constructor].
  inversion 1 as [|? ? ? ? _ Hrest]; [done | inversion Hrest].
Qed.

Lemma decomposes_cons gap_ok x y rest s :
  decomposes gap_ok (x :: y :: rest) s
  <-> exists gap s', s = x ++ gap ++ s' /\ Forall gap_ok gap /\ decomposes gap_ok (y :: rest) s'.
Proof.
  split.
  - inversion 1; subst. eauto.
  - intros (gap & s' & -> & ? & ?). by constructor.
Qed.

Lemma run_compiled segs :
  segs <> [] ->
  forall prev cp s,
    is_Some (run false (compiled segs ++ [TEol]) prev cp s)
    <-> decomposes not_terminator segs s.
Proof.
  induction segs as [|x rest IH]; [done|]. intros _.
  destruct rest as [|y rest]; intros prev cp s.
  - cbn [compiled]. rewrite (run_lits false [TEol] (fun s => s = []) run_eol).
    rewrite decomposes_single. split.
    + intros (s' & -> & ->). by rewrite app_nil_r.
    + intros ->. exists []. by rewrite app_nil_r.
  - change (compiled (x :: y :: rest)) with (lits x ++ TStar ADot :: compiled (y :: rest)).
    rewrite <- app_assoc. cbn [app].
    rewrite (run_lits false _ _
               (run_dotstar false _ _ (IH ltac:(done)))).
    rewrite decomposes_cons. split.
    + intros (s' & -> & gap & s'' & -> & ? & ?). eauto.
    + intros (gap & s' & -> & ? & ?). eauto 10.
Qed.

(** Without the [m] flag, [^] holds at index 0 only. *)
Lemma search_bol_later ts c s : search false (TBol :: ts) (Some c) s = None.
Proof. revert c. induction s as [|d s IH]; intros c; cbn; [done | apply IH]. Qed.

Lemma test_anchored ts s :
  test {| terms := TBol :: ts; multiline := false |} s = true
  <-> is_Some (run false ts None no_caps s).
Proof.
  unfold test, exec. cbn [terms multiline].
  destruct s as [|c s]; cbn [search run at_bol].
  - destruct (run false ts None no_caps []); split; try done; try (by eauto);
      intros [? ?]; done.
  - rewrite search_bol_later.
    destruct (run false ts None no_caps (c :: s)); split; try done; try (by eauto);
      intros [? ?]; done.
Qed.

Lemma includes_In s c : includes s c = true <-> In c s.
Proof.
  unfold includes. rewrite existsb_exists. split.
  - intros (x & ? & E). apply N.eqb_eq in E. by subst.
  - intros ?. exists c. split; [done | apply N.eqb_refl].
Qed.

(** [split] cuts at every separator and nowhere else. *)
Lemma split_join s sep : Array_join (split s sep) [sep] = s.
Proof.
  induction s as [|c s IH]; [done|]. cbn [split].
  destruct (N.eqb_spec c sep) as [->|Hne].
  - pose proof (split_nonempty s sep) as Hn.
    destruct (split s sep) as [|y r] eqn:E; [done|].
    change (Array_join ([] :: y :: r) [sep]) with ([] ++ [sep] ++ Array_join (y :: r) [sep]).
    rewrite IH. reflexivity.
  - pose proof (split_nonempty s sep) as Hn.
    destruct (split s sep) as [|y r] eqn:E; [done|].
    destruct r as [|z r]; cbn in IH |- *; by rewrite <- IH.
Qed.

Lemma split_no_sep s sep : Forall (fun seg => includes seg sep = false) (split s sep).
Proof.
  induction s as [|c s IH]; cbn [split]; [by repeat constructor|].
  destruct (N.eqb_spec c sep) as [->|Hne]; [by constructor|].
  destruct (split s sep) as [|y r]; [repeat constructor; cbn|].
  - apply orb_false_intro; [by apply N.eqb_neq | done].
  - apply Forall_cons in IH as [Hy Hr]. constructor; [|done]. cbn.
    apply orb_false_intro; [by apply N.eqb_neq | done].
Qed.

(** The matcher on every name and pattern: what the code computes. *)
Lemma matches_exact name pattern :
  matches name pattern = true
  <-> pattern = []
      \/ (if includes pattern (ch "*")
          then decomposes not_terminator (split pattern (ch "*")) name
          else name = pattern).
Proof.
  unfold matches. destruct pattern as [|p pattern]; cbn [truthy negb].
  - split; [by left | done].
  - destruct (includes (p :: pattern) (ch "*")) eqn:E.
    + rewrite source_parses, test_anchored, run_compiled by apply split_nonempty.
      split; [by right | by intros [?|?]].
    + rewrite bool_decide_eq_true. split; [by right | by intros [?|?]].
Qed.

Lemma decomposes_weaken (P R : char -> Prop) segs s :
  (forall c, P c -> R c) -> decomposes P segs s -> decomposes R segs s.
Proof.
  intros HPR. induction 1; constructor; try done.
  eapply Forall_impl; eauto.
Qed.

Lemma decomposes_within (P R : char -> Prop) segs s :
  Forall R s -> decomposes P segs s -> decomposes R segs s.
Proof.
  intros Hs Hd. induction Hd as [|seg gap segs rest Hgap Hd IH]; [constructor|].
  apply Forall_app in Hs as [_ Hs]. apply Forall_app in Hs as [? ?].
  constructor; auto.
Qed.

End MatcherFacts.

(** ** The matcher against the specification *)

Module MatcherClaims.
Import MatcherFacts BuildAll.

(** A pattern without star that the program can pass (it is never empty)
    matches the identical name only, on every name. *)
Lemma matches_no_star (name pattern : jsstring) :
  pattern <> [] -> includes pattern (ch "*") = false ->
  (matches name pattern = true <-> name = pattern).
Proof.
  intros Hne Hinc. rewrite matches_exact, Hinc. split; [by intros [?|?] | by right].
Qed.

(** On a name without line terminator a pattern with a star matches iff
    the name is the pattern's literal segments in order, with any run of
    characters for each star. *)
Lemma matches_star_one_line (name pattern : jsstring) :
  includes pattern (ch "*") = true -> Forall not_terminator name ->
  (matches name pattern = true
   <-> decomposes any_char (split pattern (ch "*")) name).
Proof.
  intros Hinc Hname. rewrite matches_exact, Hinc.
  assert (Hne : pattern <> []) by (intros ->; done).
  split.
  - intros [?|Hd]; [done|]. eapply decomposes_weaken; [|exact Hd]. done.
  - intros Hd. right. by eapply decomposes_within.
Qed.

(** C1 at a deck directory whose name holds a line feed, with
    [SKIP_DECKS=*].  The name is a decomposition along the pattern, the
    star standing for the whole name, yet [matches] answers false: the
    dot of the compiled [^.*$] stops at a line terminator.  The deck is
    therefore not skipped and discovery returns it. *)
Theorem star_misses_line_feed :
  let H := Sim.host (Sim.always (Some 0%Z)) in
  let P := Sim.proc {[ str "SKIP_DECKS" := str "*" ]} [] in
  SKIP P = [str "*"]
  /\ decomposes any_char (split (str "*") (ch "*")) Inputs.line_feed_name
  /\ matches Inputs.line_feed_name (str "*") = false
  /\ shouldSkip (SKIP P) Inputs.line_feed_name = false
  /\ discoverDecks H P (ONLY P) (SKIP P) (Sim.start Inputs.line_feed_deck)
     = (Ret [ {| name := Inputs.line_feed_name;
                 path := str "/repo/slides/" ++ Inputs.line_feed_name;
                 entry := Some (str "slides.md") |} ],
        Sim.start Inputs.line_feed_deck).
Proof.
  cbn zeta. split; [vm_compute; reflexivity|]. split.
  - change (split (str "*") (ch "*")) with [@nil char; []].
    apply (dec_cons any_char [] Inputs.line_feed_name [[]] []); [|constructor].
    by apply Forall_forall.
  - repeat split; vm_compute; reflexivity.
Qed.

End MatcherClaims.

(** ** Lists, as the scripts use them *)

Module ListFacts.

Lemma find_first {A} (f : A -> bool) (l : list A) (i : nat) (x : A) :
  l !! i = Some x ->
  f x = true ->
  (forall j y, (j < i)%nat -> l !! j = Some y -> f y = false) ->
  List.find f l = Some x.
Proof.
  revert i. induction l as [|a l IH]; intros i Hi Hx Hbefore; [done|].
  destruct i as [|i]; cbn in Hi |- *.
  - injection Hi as ->. by rewrite Hx.
  - rewrite (Hbefore 0%nat a) by (done || lia).
    apply (IH i); [done..|]. intros j y Hj Hy. apply (Hbefore (S j) y); [lia | done].
Qed.

Lemma find_absent {A} (f : A -> bool) (l : list A) :
  Forall (fun y => f y = false) l -> List.find f l = None.
Proof. induction 1 as [|a l Ha _ IH]; cbn; [done | by rewrite Ha]. Qed.

Lemma find_head_filter {A} (f : A -> bool) (l : list A) :
  List.find f l = head (List.filter f l).
Proof. induction l as [|a l IH]; cbn; [done | by destruct (f a)]. Qed.

Lemma head_filter_first {A} (f : A -> bool) (pre post : list A) (x : A) :
  Forall (fun y => f y = false) pre ->
  f x = true ->
  head (List.filter f (pre ++ x :: post)) = Some x.
Proof.
  induction 1 as [|a pre Ha _ IH]; intros Hx; cbn.
  - by rewrite Hx.
  - rewrite Ha. by apply IH.
Qed.

Lemma head_filter_absent {A} (f : A -> bool) (l : list A) :
  Forall (fun y => f y = false) l -> head (List.filter f l) = None.
Proof. rewrite <- find_head_filter. apply find_absent. Qed.

Lemma startsWith_nonempty s p pre : startsWith s (p :: pre) = true -> truthy s = true.
Proof. by destruct s. Qed.

Lemma endsWith_nonempty s p suf : endsWith s (suf ++ [p]) = true -> truthy s = true.
Proof.
  unfold endsWith. rewrite rev_app_distr. cbn [rev app].
  destruct s as [|c s]; [done | by intros _].
Qed.

End ListFacts.

(** ** Entry resolution *)

Module EntryFacts.
Import ListFacts BuildAll DevSpec.

Section Facts.
Context {W : Type} (H : Host W) (P : process).

Lemma candidates_truthy c : In c candidates -> truthy c = true.
Proof. cbn. intros [<-|[<-|[<-|[<-|[]]]]]; reflexivity. Qed.

Lemma md_truthy f : endsWith f (str ".md") = true -> truthy f = true.
Proof. apply (endsWith_nonempty f (ch "d") (str ".m")). Qed.

(** The dev launcher resolves the entry exactly as [findEntry] does, and
    then either stops or spawns the renderer and exits with what
    [process.exit] makes of the child's code. *)
Lemma dev_resolved st n :
  Dev.deckName P = Some n ->
  truthy n = true ->
  existsSync H (world st) (join H (Dev.SLIDES_DIR H P) n) = true ->
  Dev.script H P st =
  let deckPath := join H (Dev.SLIDES_DIR H P) n in
  match findEntry H (world st) deckPath with
  | inl e => (Throw e, st)
  | inr None =>
      (Exit 1%Z,
       {| world := world st; trace := trace st ++ [Err (no_entry_message deckPath)] |})
  | inr (Some e) =>
      let (w', code) := spawn H (world st) (Dev.serve_call H P deckPath e) in
      (Exit (default 0%Z code),
       {| world := w';
          trace := (trace st ++ [Log (starting_message n e)])
                     ++ [Spawn (Dev.serve_call H P deckPath e) code] |})
  end.
Proof.
  intros Hn Ht Hex. unfold Dev.script. rewrite Hn. cbn [falsy default from_option id].
  rewrite Ht. cbn [negb].
  unfold findEntry. change Dev.candidates with candidates.
  cbv [mbind M_bind read mret M_ret exn_ret]. rewrite Hex. cbn [negb].
  destruct (List.find _ candidates) as [c|] eqn:E.
  - apply find_some in E as [Hin _]. cbn [falsy]. rewrite (candidates_truthy c Hin).
    cbv [negb default from_option id console_log emit spawn_child process_exit]. cbn [world trace].
    by destruct (spawn H (world st) _).
  - cbn [falsy]. cbv [fmap exn_fmap exn_bind].
    destruct (readdirSync H (world st) _) as [e|files]; [done|].
    rewrite find_head_filter.
    destruct (List.filter _ files) as [|f md] eqn:Emd; cbn [head falsy].
    + reflexivity.
    + assert (Hf : endsWith f (str ".md") = true).
      { assert (Hin : In f (List.filter (fun f => endsWith f (str ".md")) files))
          by (rewrite Emd; by left).
        by apply filter_In in Hin as [_ ?]. }
      rewrite (md_truthy f Hf).
      cbv [negb default from_option id console_log emit spawn_child process_exit]. cbn [world trace].
      by destruct (spawn H (world st) _).
Qed.

(** Without a usable name the launcher stops before anything else. *)
Lemma dev_no_name st :
  falsy (Dev.deckName P) = true ->
  Dev.script H P st =
  (Exit 1%Z,
   {| world := world st;
      trace := trace st ++ [Err no_name_message] |}).
Proof. intros Hn. unfold Dev.script. by rewrite Hn. Qed.

Lemma dev_no_folder st n :
  Dev.deckName P = Some n ->
  truthy n = true ->
  existsSync H (world st) (join H (Dev.SLIDES_DIR H P) n) = false ->
  Dev.script H P st =
  (Exit 1%Z,
   {| world := world st;
      trace := trace st ++ [Err (no_folder_message (join H (Dev.SLIDES_DIR H P) n))] |}).
Proof.
  intros Hn Ht Hex. unfold Dev.script. rewrite Hn. cbn [falsy default from_option id].
  rewrite Ht. cbn [negb].
  cbv [mbind M_bind read mret M_ret exn_ret]. by rewrite Hex.
Qed.

End Facts.
End EntryFacts.

(** ** Discovery and selection *)

Module DiscoveryFacts.
Import ListFacts BuildAll BatchSpec.

Lemma filterE_In {A} (f : A -> exn + bool) l r x :
  filterE f l = inr r -> In x r -> In x l /\ f x = inr true.
Proof.
  revert r. induction l as [|a l IH]; intros r; cbn.
  - intros [= <-] [].
  - cbv [mbind exn_bind mret exn_ret].
    destruct (f a) as [|b] eqn:Ea; [done|].
    destruct (filterE f l) as [|r']; [done|]. intros [= <-].
    destruct b.
    + intros [<-|Hin]; [by split; [left|] |]. destruct (IH r' eq_refl Hin). by split; [right|].
    + intros Hin. destruct (IH r' eq_refl Hin). by split; [right|].
Qed.

Lemma mapE_In {A B} (g : A -> exn + B) l ys y :
  mapE g l = inr ys -> In y ys -> exists x, In x l /\ g x = inr y.
Proof.
  revert ys. induction l as [|a l IH]; intros ys; cbn.
  - intros [= <-] [].
  - cbv [mbind exn_bind mret exn_ret].
    destruct (g a) as [|b] eqn:Ea; [done|].
    destruct (mapE g l) as [|r']; [done|]. intros [= <-].
    intros [<-|Hin]; [exists a; by split; [left|] |].
    destruct (IH r' eq_refl Hin) as (x & ? & ?). exists x. by split; [right|].
Qed.

Lemma mapE_filter {A B} (g : A -> exn + B) (key : B -> A) (sel : A -> bool) l ys ys' :
  (forall x y, g x = inr y -> key y = x) ->
  mapE g l = inr ys ->
  mapE g (List.filter sel l) = inr ys' ->
  ys' = List.filter (fun y => sel (key y)) ys.
Proof.
  intros Hkey. revert ys ys'. induction l as [|a l IH]; intros ys ys'; cbn.
  - by intros [= <-] [= <-].
  - cbv [mbind exn_bind mret exn_ret].
    destruct (g a) as [|b] eqn:Ea; [done|].
    destruct (mapE g l) as [|r]; [done|]. intros [= <-].
    cbn [List.filter]. rewrite (Hkey a b Ea).
    destruct (sel a); cbn [mapE]; cbv [mbind exn_bind mret exn_ret].
    + rewrite Ea. destruct (mapE g (List.filter sel l)) as [|r']; [done|].
      intros [= <-]. f_equal. by apply IH.
    + by apply IH.
Qed.

Lemma List_filter_decide {A} (f : A -> bool) (Q : A -> Prop) `{!forall x, Decision (Q x)} l :
  (forall x, f x = true <-> Q x) -> List.filter f l = filter Q l.
Proof.
  intros Hf. induction l as [|a l IH]; [done|]. cbn [List.filter].
  rewrite filter_cons, IH. destruct (decide (Q a)) as [Ha|Ha].
  - apply Hf in Ha. by rewrite Ha.
  - destruct (f a) eqn:E; [|done]. apply Hf in E. done.
Qed.

Section Facts.
Context {W : Type} (H : Host W) (P : process).

Lemma discoverDecks_unfold only skip st :
  discoverDecks H P only skip st =
  if existsSync H (world st) (SLIDES_DIR H P) then
    match listing H P only skip (world st) with
    | inl e => (Throw e, st)
    | inr decks => (Ret decks, st)
    end
  else
    (Exit 1%Z,
     {| world := world st;
        trace := trace st ++ [Err (str "No slides/ directory found.")] |}).
Proof.
  unfold discoverDecks, listing.
  cbv [mbind M_bind read mret M_ret exn_ret].
  by destruct (existsSync H (world st) (SLIDES_DIR H P)).
Qed.

(** Discovery reads only: it leaves the world and, unless [slides/] is
    missing, the trace as they were. *)
Lemma discoverDecks_Ret only skip st decks st' :
  discoverDecks H P only skip st = (Ret decks, st') ->
  st' = st /\ existsSync H (world st) (SLIDES_DIR H P) = true
  /\ listing H P only skip (world st) = inr decks.
Proof.
  rewrite discoverDecks_unfold.
  destruct (existsSync H (world st) (SLIDES_DIR H P)); [|done].
  destruct (listing H P only skip (world st)); [done|]. by intros [= <- <-].
Qed.

Lemma selected_all n : selected [] [] n = true.
Proof. reflexivity. Qed.

Lemma keep_unfold only skip w n :
  keep H P only skip w n =
  match isDirectory H w (join H (SLIDES_DIR H P) n) with
  | inl e => inl e
  | inr d =>
      if d && negb (startsWith n (str ".")) && negb (startsWith n (str "_"))
         && selected only skip n
      then match findEntry H w (join H (SLIDES_DIR H P) n) with
           | inl e => inl e
           | inr e => inr (bool_decide (e <> None))
           end
      else inr false
  end.
Proof.
  unfold keep, selected. cbv [mbind exn_bind mret exn_ret].
  destruct (isDirectory H w _) as [|d]; [done|].
  by rewrite <- !andb_assoc.
Qed.

(** What it takes to be kept by the filter. *)
Lemma keep_true only skip w n :
  keep H P only skip w n = inr true <->
  isDirectory H w (join H (SLIDES_DIR H P) n) = inr true
  /\ startsWith n (str ".") = false
  /\ startsWith n (str "_") = false
  /\ selected only skip n = true
  /\ exists e, findEntry H w (join H (SLIDES_DIR H P) n) = inr (Some e).
Proof.
  rewrite keep_unfold. split.
  - destruct (isDirectory H w _) as [|d]; [done|].
    destruct d; [|done]. cbn [andb].
    destruct (startsWith n (str ".")); [done|].
    destruct (startsWith n (str "_")); [done|]. cbn [negb andb].
    destruct (selected only skip n); [|done].
    destruct (findEntry H w _) as [|[e|]]; [done| |done].
    intros _. repeat split; eauto.
  - intros (-> & -> & -> & -> & e & ->). reflexivity.
Qed.

Lemma filterE_selected only skip w names dirs all :
  filterE (keep H P only skip w) names = inr dirs ->
  filterE (keep H P [] [] w) names = inr all ->
  dirs = List.filter (selected only skip) all.
Proof.
  revert dirs all. induction names as [|n names IH]; intros dirs all; cbn [filterE].
  - by intros [= <-] [= <-].
  - cbv [mbind exn_bind mret exn_ret]. rewrite !keep_unfold.
    destruct (isDirectory H w _) as [|d]; [done|].
    rewrite selected_all, andb_true_r.
    destruct (d && negb (startsWith n (str ".")) && negb (startsWith n (str "_"))).
    + cbn [andb]. destruct (selected only skip n) eqn:Es.
      * destruct (findEntry H w _) as [|e]; [done|].
        destruct (filterE (keep H P only skip w) names) as [|r]; [done|].
        destruct (filterE (keep H P [] [] w) names) as [|r0]; [done|].
        intros [= <-] [= <-]. rewrite (IH r r0 eq_refl eq_refl).
        destruct (bool_decide (e <> None)); [|done]. cbn [List.filter]. by rewrite Es.
      * destruct (filterE (keep H P only skip w) names) as [|r]; [done|].
        intros [= <-].
        destruct (findEntry H w _) as [|e]; [done|].
        destruct (filterE (keep H P [] [] w) names) as [|r0]; [done|].
        intros [= <-]. rewrite (IH r r0 eq_refl eq_refl).
        destruct (bool_decide (e <> None)); [|done]. cbn [List.filter]. by rewrite Es.
    + cbn [andb].
      destruct (filterE (keep H P only skip w) names) as [|r]; [done|].
      destruct (filterE (keep H P [] [] w) names) as [|r0]; [done|].
      intros [= <-] [= <-]. by apply IH.
Qed.

Lemma listing_selected only skip w decks all :
  listing H P only skip w = inr decks ->
  listing H P [] [] w = inr all ->
  decks = List.filter (fun d => selected only skip (name d)) all.
Proof.
  unfold listing. cbv [mbind exn_bind].
  destruct (readdirSync H w _) as [|names]; [done|].
  destruct (filterE (keep H P only skip w) names) as [|dirs] eqn:Ed; [done|].
  destruct (filterE (keep H P [] [] w) names) as [|dirs0] eqn:E0; [done|].
  intros Hd Ha. rewrite (filterE_selected _ _ _ _ _ _ Ed E0) in Hd.
  eapply (mapE_filter _ name); [|exact Ha|exact Hd].
  intros x y. cbv [mret exn_ret]. destruct (findEntry H w _); [done|]. by intros [= <-].
Qed.

(** Every discovered deck is a visible directory of [slides/] that the
    selection keeps and whose entry was resolved. *)
Lemma listing_sound only skip w decks d :
  listing H P only skip w = inr decks ->
  In d decks ->
  (exists names, readdirSync H w (SLIDES_DIR H P) = inr names /\ In (name d) names)
  /\ path d = join H (SLIDES_DIR H P) (name d)
  /\ keep H P only skip w (name d) = inr true
  /\ exists e, entry d = Some e /\ findEntry H w (path d) = inr (Some e).
Proof.
  unfold listing. cbv [mbind exn_bind].
  destruct (readdirSync H w _) as [|names]; [done|].
  destruct (filterE (keep H P only skip w) names) as [|dirs] eqn:Ed; [done|].
  intros Hm Hin. destruct (mapE_In _ _ _ _ Hm Hin) as (n & Hn & Hg).
  destruct (filterE_In _ _ _ _ Ed Hn) as [Hnames Hkeep].
  pose proof (proj1 (keep_true _ _ _ _) Hkeep) as (_ & _ & _ & _ & e & He).
  rewrite He in Hg. cbv [mret exn_ret] in Hg. injection Hg as <-. cbn.
  repeat split; eauto.
Qed.


Lemma selected_Retained only skip n :
  selected only skip n = true <-> Retained only skip n.
Proof.
  unfold selected, Retained, isOnly, shouldSkip.
  rewrite andb_true_iff, orb_true_iff, negb_true_iff, Nat.eqb_eq.
  rewrite <- not_true_iff_false, !existsb_exists, !List.Exists_exists.
  rewrite length_zero_iff_nil. done.
Qed.

(** C2.  For every pair of pattern lists, the decks discovered under the
    selection are the decks discovered without any selection (the
    candidates) with exactly those removed whose name fails the rule
    "the include list is empty or the name matches an include pattern,
    and the name matches no exclude pattern"; being a filter of the
    candidate list, the result keeps the candidates' relative order. *)
Theorem selector_retains (only skip : list jsstring) (st st1 st2 : state W)
    (all decks : list Deck) :
  discoverDecks H P [] [] st = (Ret all, st1) ->
  discoverDecks H P only skip st = (Ret decks, st2) ->
  decks = filter (fun d => Retained only skip (name d)) all.
Proof.
  intros Hall Hsel.
  apply discoverDecks_Ret in Hall as (_ & _ & Hall).
  apply discoverDecks_Ret in Hsel as (_ & _ & Hsel).
  rewrite (listing_selected _ _ _ _ _ Hsel Hall).
  apply List_filter_decide. intros d. apply selected_Retained.
Qed.

End Facts.

Lemma selector_retains_witness :
  [Sim.deck_record "a"; Sim.deck_record "b"]
  = filter (fun d => Retained [] [str "old-*"] (name d))
      [Sim.deck_record "a"; Sim.deck_record "old-1";
       Sim.deck_record "old-2"; Sim.deck_record "b"].
Proof.
  apply (selector_retains (Sim.host (Sim.always (Some 0%Z))) (Sim.proc ∅ [])
           [] [str "old-*"]
           (Sim.start (Sim.slides ["a"; "old-1"; "old-2"; "b"]%string []))
           (Sim.start (Sim.slides ["a"; "old-1"; "old-2"; "b"]%string []))
           (Sim.start (Sim.slides ["a"; "old-1"; "old-2"; "b"]%string [])));
    vm_compute; reflexivity.
Defined.

End DiscoveryFacts.

(** ** Entry resolution against the specification *)

Module EntryClaims.
Import ListFacts BuildAll DevSpec BatchSpec EntryFacts DiscoveryFacts.

Section Claims.
Context {W : Type} (H : Host W) (P : process).

(** C3.  For every deck directory, [findEntry] returns the first of
    [slides.md], [index.md], [deck.md], [presentation.md] that exists, in
    that order; when none exists and the directory can be listed, it
    returns the first listed name ending in [.md], and "no entry" when
    there is none.  A directory without entry is in no discovered build
    set, and the dev launcher given its name exits with 1 without
    spawning; a resolved entry is the one the dev launcher serves. *)
Theorem entry_resolution (w : W) (deckPath : pathname) :
  let ex c := existsSync H w (join H deckPath c) in
  let md f := endsWith f (str ".md") in
  ((ex (str "slides.md") = true -> findEntry H w deckPath = inr (Some (str "slides.md")))
   /\ (ex (str "slides.md") = false -> ex (str "index.md") = true ->
       findEntry H w deckPath = inr (Some (str "index.md")))
   /\ (ex (str "slides.md") = false -> ex (str "index.md") = false -> ex (str "deck.md") = true ->
       findEntry H w deckPath = inr (Some (str "deck.md")))
   /\ (ex (str "slides.md") = false -> ex (str "index.md") = false -> ex (str "deck.md") = false ->
       ex (str "presentation.md") = true ->
       findEntry H w deckPath = inr (Some (str "presentation.md")))
   /\ (ex (str "slides.md") = false -> ex (str "index.md") = false -> ex (str "deck.md") = false ->
       ex (str "presentation.md") = false ->
       forall files, readdirSync H w deckPath = inr files ->
         (forall pre f post,
            files = pre ++ f :: post ->
            Forall (fun g => md g = false) pre -> md f = true ->
            findEntry H w deckPath = inr (Some f))
         /\ (Forall (fun g => md g = false) files ->
             findEntry H w deckPath = inr None)))
  /\ (findEntry H w deckPath = inr None ->
      (forall only skip st decks st' n,
         world st = w -> deckPath = join H (SLIDES_DIR H P) n ->
         discoverDecks H P only skip st = (Ret decks, st') ->
         ~ In n (map name decks))
      /\ (forall st n,
            world st = w -> deckPath = join H (Dev.SLIDES_DIR H P) n ->
            Dev.deckName P = Some n -> truthy n = true ->
            existsSync H w deckPath = true ->
            Dev.script H P st =
            (Exit 1%Z,
             {| world := w; trace := trace st ++ [Err (no_entry_message deckPath)] |})))
  /\ (forall e st n,
        findEntry H w deckPath = inr (Some e) ->
        world st = w -> deckPath = join H (Dev.SLIDES_DIR H P) n ->
        Dev.deckName P = Some n -> truthy n = true ->
        existsSync H w deckPath = true ->
        exists w' code,
          spawn H w (Dev.serve_call H P deckPath e) = (w', code)
          /\ Dev.script H P st =
             (Exit (default 0%Z code),
              {| world := w';
                 trace := (trace st ++ [Log (starting_message n e)])
                            ++ [Spawn (Dev.serve_call H P deckPath e) code] |})).
Proof.
  intros ex md. subst ex md. cbn beta. split; [|split].
  - unfold findEntry, candidates. cbn [List.find].
    split; [|split; [|split; [|split]]].
    + by intros ->.
    + by intros -> ->.
    + by intros -> -> ->.
    + by intros -> -> -> ->.
    + intros E1 E2 E3 E4 files Hr. rewrite E1, E2, E3, E4, Hr.
      cbv [mbind exn_bind mret exn_ret]. split.
      * intros pre f post -> Hpre Hf. f_equal. by apply head_filter_first.
      * intros Hfiles. f_equal. by apply head_filter_absent.
  - intros Hnone. split.
    + intros only skip st decks st' n <- -> Hd Hin.
      apply discoverDecks_Ret in Hd as (_ & _ & Hl).
      apply in_map_iff in Hin as (d & <- & Hin).
      destruct (listing_sound H P _ _ _ _ d Hl Hin) as (_ & Hp & _ & e & _ & He).
      rewrite Hp in He. congruence.
    + intros st n <- -> Hn Ht Hex.
      rewrite (dev_resolved H P st n Hn Ht Hex). cbn zeta. by rewrite Hnone.
  - intros e st n He <- -> Hn Ht Hex.
    rewrite (dev_resolved H P st n Hn Ht Hex). cbn zeta. rewrite He.
    destruct (spawn H (world st) _) as [w' code]. by exists w', code.
Qed.

End Claims.

Lemma entry_resolution_witness :
  findEntry (Sim.host (Sim.always (Some 0%Z)))
    [ (str "/repo/slides/talk", Sim.Dir [str "index.md"; str "slides.md"]);
      (str "/repo/slides/talk/index.md", Sim.File []);
      (str "/repo/slides/talk/slides.md", Sim.File []) ]
    (str "/repo/slides/talk")
  = inr (Some (str "slides.md")).
Proof.
  refine (proj1 (proj1 (entry_resolution (Sim.host (Sim.always (Some 0%Z)))
                          (Sim.proc ∅ []) _ _)) _).
  vm_compute. reflexivity.
Defined.

End EntryClaims.

(** ** The batch flow *)

Module BatchFacts.
Import ListFacts BuildAll BatchSpec DiscoveryFacts.

Lemma spawns_app a b : spawns (a ++ b) = spawns a ++ spawns b.
Proof. apply omap_app. Qed.

Lemma writes_app a b : writes (a ++ b) = writes a ++ writes b.
Proof. apply omap_app. Qed.

Lemma spawns_Log l : spawns [Log l] = [].
Proof. reflexivity. Qed.
Lemma spawns_Err l : spawns [Err l] = [].
Proof. reflexivity. Qed.
Lemma spawns_Mkdir p : spawns [Mkdir p] = [].
Proof. reflexivity. Qed.
Lemma spawns_WriteFile p d : spawns [WriteFile p d] = [].
Proof. reflexivity. Qed.
Lemma spawns_failed m : spawns [build_failed m] = [].
Proof. reflexivity. Qed.
Lemma writes_Log l : writes [Log l] = [].
Proof. reflexivity. Qed.
Lemma writes_Err l : writes [Err l] = [].
Proof. reflexivity. Qed.
Lemma writes_Mkdir p : writes [Mkdir p] = [].
Proof. reflexivity. Qed.
Lemma writes_WriteFile p d : writes [WriteFile p d] = [(p, d)].
Proof. reflexivity. Qed.
Lemma writes_failed m : writes [build_failed m] = [].
Proof. reflexivity. Qed.

Create Rewrite HintDb obs.
#[local] Hint Rewrite spawns_app writes_app spawns_Log spawns_Err spawns_Mkdir
  spawns_WriteFile spawns_failed writes_Log writes_Err writes_Mkdir writes_WriteFile
  writes_failed @app_nil_r @app_nil_l : obs.

Section Facts.
Context {W : Type} (H : Host W) (P : process).

(** One deck: the renderer is called once, after the output directory
    was made; a code other than 0 is thrown as [failure_message]. *)
Lemma buildDeck_obs d st r st' :
  buildDeck H P d st = (r, st') ->
  exists evs,
    trace st' = trace st ++ evs /\ writes evs = []
    /\ match r with
       | Ret _ => spawns evs = [ok_build H P d]
       | Throw e =>
           spawns evs = []
           \/ exists code,
                code <> Some 0%Z /\ spawns evs = [(build_call H P d, code)]
                /\ e = failure_message (build_call H P d) code
       | Exit _ => False
       end.
Proof.
  unfold buildDeck, run.
  cbv [mbind M_bind console_log emit write spawn_child throw mret M_ret]. cbn [world trace].
  destruct (mkdirSync H (world st) _) as [e|w1].
  - intros [= <- <-]. cbn [trace]. eexists. rewrite <- !(@app_assoc event). split; [reflexivity|].
    split; [reflexivity | by left].
  - cbn [world trace]. fold (build_call H P d).
    destruct (spawn H w1 (build_call H P d)) as [w2 code]. cbn [world trace].
    destruct (bool_decide (code = Some 0%Z)) eqn:E.
    + apply bool_decide_eq_true in E as ->.
      intros [= <- <-]. cbn [trace]. eexists. rewrite <- !(@app_assoc event).
      split; [reflexivity|]. split; reflexivity.
    + apply bool_decide_eq_false in E.
      intros [= <- <-]. cbn [trace]. eexists. rewrite <- !(@app_assoc event).
      split; [reflexivity|]. split; [reflexivity|]. right. exists code.
      split; [exact E | split; reflexivity].
Qed.


(** The loop: the decks are built in order and the first failure ends it. *)
Lemma for_of_obs decks st r st' :
  for_of decks (buildDeck H P) st = (r, st') ->
  exists evs,
    trace st' = trace st ++ evs /\ writes evs = []
    /\ match r with
       | Ret _ => spawns evs = map (ok_build H P) decks
       | Throw e =>
           exists k d,
             decks !! k = Some d
             /\ (spawns evs = map (ok_build H P) (take k decks)
                 \/ exists code,
                      code <> Some 0%Z
                      /\ spawns evs
                         = map (ok_build H P) (take k decks) ++ [(build_call H P d, code)]
                      /\ e = failure_message (build_call H P d) code)
       | Exit _ => False
       end.
Proof.
  revert st r st'. induction decks as [|d decks IH]; intros st r st'; cbn [for_of].
  - intros [= <- <-]. exists []. by rewrite app_nil_r.
  - cbv [mbind M_bind].
    destruct (buildDeck H P d st) as [r1 st1] eqn:E1.
    apply buildDeck_obs in E1 as (evs1 & Ht1 & Hw1 & Hs1).
    destruct r1 as [[]|e|c].
    + destruct (for_of decks (buildDeck H P) st1) as [r2 st2] eqn:E2.
      apply IH in E2 as (evs2 & Ht2 & Hw2 & Hs2).
      intros [= <- <-]. exists (evs1 ++ evs2).
      rewrite Ht2, Ht1, <- (@app_assoc event), writes_app, spawns_app, Hw1, Hw2, Hs1.
      split; [done|]. split; [done|].
      destruct r2 as [[]|e|c]; [by rewrite Hs2 | | done].
      destruct Hs2 as (k & d' & Hk & Hs2). exists (S k), d'. split; [done|].
      cbn [take map app].
      destruct Hs2 as [->|(code & ? & -> & ->)]; [by left|].
      right. by exists code.
    + intros [= <- <-]. exists evs1. split; [done|]. split; [done|].
      exists 0%nat, d. split; [done|]. cbn [take map app].
      destruct Hs1 as [->|(code & ? & -> & ->)]; [by left|].
      right. by exists code.
    + done.
Qed.

(** A title is always produced: a failed read gives the deck's name. *)
Lemma deck_title_eq d st :
  deck_title H d st = (Ret (title_in H (world st) d), st).
Proof.
  unfold deck_title, title_in, try_catch. cbv [mbind M_bind read mret M_ret].
  destruct (entry d) as [e|]; [|done].
  by destruct (readFileSync H (world st) _).
Qed.

Lemma titles_eq decks st :
  mapM (fun d => title ← deck_title H d; mret (item (name d) title)) decks st
  = (Ret (map (fun d => item (name d) (title_in H (world st) d)) decks), st).
Proof.
  induction decks as [|d decks IH]; [done|]. cbn [mapM map].
  cbv [mbind M_bind mret M_ret] in IH |- *.
  by rewrite deck_title_eq, IH.
Qed.

Lemma generateIndex_unfold decks st :
  generateIndex H P decks st =
  match mkdirSync H (world st) (DIST_DIR H P) with
  | inl e => (Throw e, st)
  | inr w1 =>
      match writeFileSync H w1 (index_path H P) (page_in H w1 decks) with
      | inl e =>
          (Throw e, {| world := w1; trace := trace st ++ [Mkdir (DIST_DIR H P)] |})
      | inr w2 =>
          (Ret tt,
           {| world := w2;
              trace := ((trace st ++ [Mkdir (DIST_DIR H P)])
                          ++ [WriteFile (index_path H P) (page_in H w1 decks)])
                         ++ [Log ([10003] ++ str " Wrote dist/index.html")] |})
      end
  end.
Proof.
  unfold generateIndex. cbv [mbind M_bind write].
  destruct (mkdirSync H (world st) _) as [e|w1]; [done|].
  pose proof (titles_eq decks {| world := w1; trace := trace st ++ [Mkdir (DIST_DIR H P)] |})
    as Ht.
  cbv [mbind M_bind] in Ht. rewrite Ht. cbn [world trace].
  fold (page_in H w1 decks).
  by destruct (writeFileSync H w1 _ _).
Qed.

(** The main function, step by step. *)
Lemma main_unfold w :
  run_script (main H P) w =
  let st0 := {| world := w; trace := [] |} in
  if existsSync H w (SLIDES_DIR H P) then
    match listing H P (ONLY P) (SKIP P) w with
    | inl e => failed st0 e
    | inr decks =>
        if (length decks =? 0)%nat then
          {| status := 0;
             final := {| world := w;
                         trace := [Log (str "No decks found under slides/*")] |} |}
        else
          let st1 := {| world := w; trace := [Log (found_message decks)] |} in
          match mkdirSync H w (DIST_DIR H P) with
          | inl e => failed st1 e
          | inr w1 =>
              match for_of decks (buildDeck H P)
                      {| world := w1;
                         trace := [Log (found_message decks)] ++ [Mkdir (DIST_DIR H P)] |}
              with
              | (Ret _, st2) =>
                  match generateIndex H P decks st2 with
                  | (Ret _, st3) =>
                      {| status := 0;
                         final := {| world := world st3;
                                     trace := trace st3
                                       ++ [Log (nl ++ [9989] ++ str " All decks built.")] |} |}
                  | (Throw e, st3) => failed st3 e
                  | (Exit c, st3) => {| status := c; final := st3 |}
                  end
              | (Throw e, st2) => failed st2 e
              | (Exit c, st2) => {| status := c; final := st2 |}
              end
          end
    end
  else
    {| status := 1;
       final := {| world := w; trace := [Err (str "No slides/ directory found.")] |} |}.
Proof.
  unfold run_script, main, try_catch. cbn zeta.
  unfold mbind at 1. unfold M_bind at 1. rewrite discoverDecks_unfold. cbn [world trace].
  destruct (existsSync H w (SLIDES_DIR H P)); [|done].
  destruct (listing H P (ONLY P) (SKIP P) w) as [e|decks]; [done|].
  destruct (length decks =? 0)%nat; [done|].
  fold (found_message decks).
  cbv [mbind M_bind console_log emit write]. cbn [world trace app].
  destruct (mkdirSync H w (DIST_DIR H P)) as [e|w1]; [done|].
  destruct (for_of decks (buildDeck H P) _) as [[[]|e|c] st2]; [|done|done].
  by destruct (generateIndex H P decks st2) as [[[]|e|c] st3].
Qed.


(** Every run of the batch script has one of six shapes. *)
Lemma main_shape w :
  let out := run_script (main H P) w in
  let tr := trace (final out) in
  (existsSync H w (SLIDES_DIR H P) = false
   /\ status out = 1%Z /\ tr = [Err (str "No slides/ directory found.")])
  \/ (existsSync H w (SLIDES_DIR H P) = true
      /\ exists e, listing H P (ONLY P) (SKIP P) w = inl e
                   /\ status out = 1%Z /\ tr = [build_failed e])
  \/ (existsSync H w (SLIDES_DIR H P) = true
      /\ exists decks,
           listing H P (ONLY P) (SKIP P) w = inr decks
           /\ ((decks = [] /\ status out = 0%Z
                /\ tr = [Log (str "No decks found under slides/*")])
               \/ (decks <> [] /\ status out = 0%Z
                   /\ spawns tr = map (ok_build H P) decks
                   /\ exists w1, writes tr = [(index_path H P, page_in H w1 decks)])
               \/ (decks <> [] /\ status out = 1%Z /\ writes tr = []
                   /\ (exists e, last tr = Some (build_failed e))
                   /\ exists k, spawns tr = map (ok_build H P) (take k decks))
               \/ (status out = 1%Z /\ writes tr = []
                   /\ exists k d code,
                        decks !! k = Some d /\ code <> Some 0%Z
                        /\ spawns tr
                           = map (ok_build H P) (take k decks) ++ [(build_call H P d, code)]
                        /\ last tr
                           = Some (build_failed
                                     (failure_message (build_call H P d) code))))).
Proof.
  cbn zeta. rewrite main_unfold. cbn zeta.
  destruct (existsSync H w (SLIDES_DIR H P)); [|by left].
  right. destruct (listing H P (ONLY P) (SKIP P) w) as [e|decks].
  { left. split; [done|]. by exists e. }
  right. split; [done|]. exists decks. split; [done|].
  destruct decks as [|d0 decks0]; [by left|].
  right. cbn [length Nat.eqb]. set (decks := d0 :: decks0).
  assert (Hne : decks <> []) by done.
  destruct (mkdirSync H w (DIST_DIR H P)) as [e|w1].
  { right. left. cbn [failed status final trace app]. autorewrite with obs.
    repeat split; try done; [by eexists | by exists 0%nat]. }
  destruct (for_of decks (buildDeck H P) _) as [r st2] eqn:Eloop.
  apply for_of_obs in Eloop as (evs & Ht & Hw & Hs). cbn [trace] in Ht.
  destruct r as [[]|e|c]; [| |done].
  - rewrite generateIndex_unfold.
    destruct (mkdirSync H (world st2) (DIST_DIR H P)) as [e|w2].
    { right. left. cbn [failed status final trace]. rewrite Ht.
      autorewrite with obs. rewrite Hw, Hs. autorewrite with obs.
      repeat split; try done.
      - eexists. apply last_snoc.
      - exists (length decks). by rewrite firstn_all. }
    destruct (writeFileSync H w2 _ _) as [e|w3].
    { right. left. cbn [failed status final trace]. rewrite Ht.
      autorewrite with obs. rewrite Hw, Hs. autorewrite with obs.
      repeat split; try done.
      - eexists. apply last_snoc.
      - exists (length decks). by rewrite firstn_all. }
    left. cbn [status final trace world]. rewrite Ht.
    autorewrite with obs. rewrite Hw, Hs. autorewrite with obs.
    repeat split; try done. by exists w2.
  - destruct Hs as (k & d & Hk & [Hs|(code & Hc & Hs & ->)]).
    + right. left. cbn [failed status final trace]. rewrite Ht.
      autorewrite with obs. rewrite Hw, Hs. autorewrite with obs.
      repeat split; try done.
      * eexists. apply last_snoc.
      * by exists k.
    + right. right. cbn [failed status final trace]. rewrite Ht.
      autorewrite with obs. rewrite Hw, Hs. autorewrite with obs.
      repeat split; try done.
      exists k, d, code. repeat split; try done. apply last_snoc.
Qed.

End Facts.
End BatchFacts.

(** ** The batch flow against the specification *)

Module BatchClaims.
Import ListFacts BuildAll BatchSpec DiscoveryFacts BatchFacts.

Section Claims.
Context {W : Type} (H : Host W) (P : process).

Lemma lookup_ok_build (l : list Deck) (i : nat) call code :
  map (ok_build H P) l !! i = Some (call, code) ->
  code = Some 0%Z /\ exists d, l !! i = Some d /\ call = build_call H P d.
Proof.
  revert i. induction l as [|d l IH]; intros i; [done|].
  destruct i as [|i]; cbn.
  - intros [= <- <-]. eauto.
  - apply IH.
Qed.

Lemma discovered w decks :
  existsSync H w (SLIDES_DIR H P) = true ->
  listing H P (ONLY P) (SKIP P) w = inr decks ->
  discoverDecks H P (ONLY P) (SKIP P) {| world := w; trace := [] |}
  = (Ret decks, {| world := w; trace := [] |}).
Proof. intros He Hl. rewrite discoverDecks_unfold. cbn [world]. by rewrite He, Hl. Qed.

(** C4.  If the [i]-th child process of a batch run ends with a code
    other than 0 (a signal included), then it is the build of the [i]-th
    selected deck, it is the last child process of the run, no file is
    written in the run, [dist/index.html] in particular, and the run
    exits with 1. *)
Theorem fail_fast (w : W) (i : nat) (call : spawn_call) (code : option Z) :
  let out := run_script (main H P) w in
  let tr := trace (final out) in
  spawns tr !! i = Some (call, code) ->
  code <> Some 0%Z ->
  (exists decks d,
     discoverDecks H P (ONLY P) (SKIP P) {| world := w; trace := [] |}
     = (Ret decks, {| world := w; trace := [] |})
     /\ decks !! i = Some d /\ call = build_call H P d)
  /\ length (spawns tr) = S i
  /\ writes tr = []
  /\ status out = 1%Z.
Proof.
  cbn zeta. intros Hi Hcode.
  destruct (main_shape H P w) as [(_ & _ & Ht)|[(_ & e & _ & _ & Ht)|(Hex & decks & Hl & Hc)]].
  - rewrite Ht in Hi. done.
  - rewrite Ht in Hi. done.
  - destruct Hc as [(_ & _ & Ht)|[(_ & _ & Hs & _)|[(_ & _ & _ & _ & k & Hs)|Hc]]].
    + rewrite Ht in Hi. done.
    + rewrite Hs in Hi. by apply lookup_ok_build in Hi as [? _].
    + rewrite Hs in Hi. by apply lookup_ok_build in Hi as [? _].
    + destruct Hc as (Hst & Hw & k & d & code' & Hk & Hc' & Hs & _).
      rewrite Hs in Hi |- *. apply lookup_app_Some in Hi as [Hi|[Hlen Hi]].
      { by apply lookup_ok_build in Hi as [? _]. }
      rewrite length_map, length_take in Hlen.
      rewrite length_map, length_take in Hi.
      apply lookup_lt_Some in Hk as Hlt.
      rewrite length_app, length_map, length_take. cbn [length].
      replace (k `min` length decks)%nat with k in * by lia.
      destruct (i - k)%nat as [|j] eqn:Ej; [|by destruct j].
      injection Hi as <- <-. assert (i = k) as -> by lia.
      repeat split; try done; [|lia].
      exists decks, d. split; [by apply discovered | done].
Qed.

Lemma in_ok_build (l : list Deck) call code :
  In (call, code) (map (ok_build H P) l) -> code = Some 0%Z.
Proof. intros Hin. apply in_map_iff in Hin as (d & [= _ <-] & _). done. Qed.

Lemma exit_no_decks w :
  existsSync H w (SLIDES_DIR H P) = true ->
  listing H P (ONLY P) (SKIP P) w = inr [] ->
  let out := run_script (main H P) w in
  status out = 0%Z /\ spawns (trace (final out)) = [] /\ writes (trace (final out)) = [].
Proof. intros Hex Hl. cbn zeta. rewrite main_unfold. cbn zeta. by rewrite Hex, Hl. Qed.

Lemma exit_no_slides w :
  existsSync H w (SLIDES_DIR H P) = false ->
  let out := run_script (main H P) w in
  status out = 1%Z /\ trace (final out) = [Err (str "No slides/ directory found.")].
Proof. intros Hex. cbn zeta. rewrite main_unfold. cbn zeta. by rewrite Hex. Qed.

Lemma exit_written w file :
  let out := run_script (main H P) w in
  In file (writes (trace (final out))) ->
  status out = 0%Z
  /\ fst file = index_path H P
  /\ exists decks,
       existsSync H w (SLIDES_DIR H P) = true
       /\ listing H P (ONLY P) (SKIP P) w = inr decks
       /\ spawns (trace (final out)) = map (ok_build H P) decks.
Proof.
  cbn zeta. intros Hin.
  destruct (main_shape H P w) as [(_ & _ & Ht)|[(_ & e & _ & _ & Ht)|(Hex & decks & Hl & Hc)]].
  - rewrite Ht in Hin. destruct Hin.
  - rewrite Ht in Hin. destruct Hin.
  - destruct Hc as [(_ & _ & Ht)|[(_ & Hst & Hs & w1 & Hw)|[(_ & _ & Hw & _)|(_ & Hw & _)]]].
    + rewrite Ht in Hin. destruct Hin.
    + rewrite Hw in Hin. destruct Hin as [<-|[]].
      split; [done|]. split; [done|]. by exists decks.
    + rewrite Hw in Hin. destruct Hin.
    + rewrite Hw in Hin. destruct Hin.
Qed.

Lemma exit_build_failed w call code :
  let out := run_script (main H P) w in
  In (call, code) (spawns (trace (final out))) ->
  code <> Some 0%Z ->
  status out = 1%Z
  /\ last (trace (final out)) = Some (build_failed (failure_message call code)).
Proof.
  cbn zeta. intros Hin Hcode.
  destruct (main_shape H P w) as [(_ & _ & Ht)|[(_ & e & _ & _ & Ht)|(Hex & decks & Hl & Hc)]].
  - rewrite Ht in Hin. destruct Hin.
  - rewrite Ht in Hin. destruct Hin.
  - destruct Hc as [(_ & _ & Ht)|[(_ & _ & Hs & _)|[(_ & _ & _ & _ & k & Hs)|Hc]]].
    + rewrite Ht in Hin. destruct Hin.
    + rewrite Hs in Hin. by apply in_ok_build in Hin.
    + rewrite Hs in Hin. by apply in_ok_build in Hin.
    + destruct Hc as (Hst & _ & k & d & code' & _ & _ & Hs & Hlast).
      rewrite Hs in Hin. apply in_app_or in Hin as [Hin|[[= <- <-]|[]]].
      * by apply in_ok_build in Hin.
      * done.
Qed.

(** C6.  The batch run exits with 0 when no deck is selected, and when
    [dist/index.html] is written, which happens only after every
    selected deck was built with code 0.  It exits with 1 when [slides/]
    is missing, with the diagnostic as its only output, and when a build
    ends with another code, the last output being the failure message of
    that build on the diagnostic stream. *)
Theorem batch_exit_status (w : W) :
  let out := run_script (main H P) w in
  let tr := trace (final out) in
  let st0 := {| world := w; trace := [] |} in
  (discoverDecks H P (ONLY P) (SKIP P) st0 = (Ret [], st0) ->
   status out = 0%Z /\ spawns tr = [] /\ writes tr = [])
  /\ (forall file, In file (writes tr) ->
        status out = 0%Z
        /\ fst file = index_path H P
        /\ exists decks,
             discoverDecks H P (ONLY P) (SKIP P) st0 = (Ret decks, st0)
             /\ spawns tr = map (fun d => (build_call H P d, Some 0%Z)) decks)
  /\ (existsSync H w (SLIDES_DIR H P) = false ->
      status out = 1%Z /\ tr = [Err (str "No slides/ directory found.")])
  /\ (forall call code,
        In (call, code) (spawns tr) -> code <> Some 0%Z ->
        status out = 1%Z
        /\ last tr = Some (Err (nl ++ [10060] ++ str " Build failed: "
                                  ++ failure_message call code))).
Proof.
  cbn zeta. split; [|split; [|split]].
  - intros Hd. apply discoverDecks_Ret in Hd as (_ & Hex & Hl).
    by apply exit_no_decks.
  - intros file Hin. destruct (exit_written w file Hin) as (? & ? & decks & ? & ? & ?).
    split; [done|]. split; [done|]. exists decks. split; [by apply discovered | done].
  - apply exit_no_slides.
  - apply exit_build_failed.
Qed.

Lemma spawned_is_build w call code :
  In (call, code) (spawns (trace (final (run_script (main H P) w)))) ->
  exists d, call = build_call H P d.
Proof.
  intros Hin.
  destruct (main_shape H P w) as [(_ & _ & Ht)|[(_ & e & _ & _ & Ht)|(Hex & decks & Hl & Hc)]].
  - rewrite Ht in Hin. destruct Hin.
  - rewrite Ht in Hin. destruct Hin.
  - destruct Hc as [(_ & _ & Ht)|[(_ & _ & Hs & _)|[(_ & _ & _ & _ & k & Hs)|Hc]]].
    + rewrite Ht in Hin. destruct Hin.
    + rewrite Hs in Hin. apply in_map_iff in Hin as (d & [= <- _] & _). by exists d.
    + rewrite Hs in Hin. apply in_map_iff in Hin as (d & [= <- _] & _). by exists d.
    + destruct Hc as (_ & _ & k & d & code' & _ & _ & Hs & _).
      rewrite Hs in Hin. apply in_app_or in Hin as [Hin|[[= <- _]|[]]].
      * apply in_map_iff in Hin as (d' & [= <- _] & _). by exists d'.
      * by exists d.
Qed.

(** C9, as the code has it.  Every child process of a batch run gets
    [NODE_OPTIONS=--max_old_space_size=4096] when the invoking
    environment has no [NODE_OPTIONS] or an empty one, the invoking
    environment's value when that is not empty, and every other variable
    as the invoking environment has it. *)
Theorem build_env (w : W) (call : spawn_call) (code : option Z) :
  In (call, code) (spawns (trace (final (run_script (main H P) w)))) ->
  (env P !! NODE_OPTIONS = None \/ env P !! NODE_OPTIONS = Some ([] : jsstring) ->
   opt_env call !! NODE_OPTIONS = Some (str "--max_old_space_size=4096"))
  /\ (forall v : jsstring, env P !! NODE_OPTIONS = Some v -> v <> [] ->
        opt_env call !! NODE_OPTIONS = Some v)
  /\ (forall k, k <> NODE_OPTIONS -> opt_env call !! k = env P !! k).
Proof.
  intros Hin. apply spawned_is_build in Hin as [d ->].
  cbn [build_call opt_env]. unfold child_env. rewrite (left_id_L ∅ (∪)).
  split; [|split].
  - rewrite lookup_insert_eq. by intros [->| ->].
  - intros v Hv Hne. rewrite lookup_insert_eq, Hv. by destruct v.
  - intros k Hk. by rewrite lookup_insert_ne.
Qed.

End Claims.

Lemma fail_fast_witness :
  let out := run_script (main (Sim.host (Sim.fails_in "talk2" (Some 1%Z))) (Sim.proc ∅ []))
               Inputs.three_talks in
  length (spawns (trace (final out))) = 2%nat
  /\ writes (trace (final out)) = []
  /\ status out = 1%Z.
Proof.
  refine (proj2 (fail_fast (Sim.host (Sim.fails_in "talk2" (Some 1%Z))) (Sim.proc ∅ [])
                   Inputs.three_talks 1
                   (build_call (Sim.host (Sim.fails_in "talk2" (Some 1%Z))) (Sim.proc ∅ [])
                      (Sim.deck_record "talk2"))
                   (Some 1%Z) _ _)).
  - vm_compute. reflexivity.
  - discriminate.
Defined.

(** The end-to-end example: three decks, a renderer that always succeeds. *)
Lemma batch_exit_status_witness :
  let H := Sim.host (Sim.always (Some 0%Z)) in
  let P := Sim.proc ∅ [] in
  let out := run_script (main H P) Inputs.three_talks in
  status out = 0%Z
  /\ spawns (trace (final out))
     = map (fun d => (build_call H P d, Some 0%Z))
         [Sim.deck_record "talk1"; Sim.deck_record "talk2"; Sim.deck_record "talk3"].
Proof.
  cbn zeta.
  destruct (proj1 (proj2 (batch_exit_status (Sim.host (Sim.always (Some 0%Z)))
                            (Sim.proc ∅ []) Inputs.three_talks))
              (index_path (Sim.host (Sim.always (Some 0%Z))) (Sim.proc ∅ []),
               page_in (Sim.host (Sim.always (Some 0%Z))) Inputs.three_talks
                 [Sim.deck_record "talk1"; Sim.deck_record "talk2"; Sim.deck_record "talk3"]))
    as (Hst & _ & decks & Hd & Hs).
  - vm_compute. left. reflexivity.
  - split; [exact Hst|]. rewrite Hs. f_equal.
    vm_compute in Hd. by injection Hd as <-.
Defined.

Lemma build_env_witness :
  let H := Sim.host (Sim.always (Some 0%Z)) in
  let P := Sim.proc {[ NODE_OPTIONS := str "--max-old-space-size=2048" ]} [] in
  opt_env (build_call H P (Sim.deck_record "talk1")) !! NODE_OPTIONS
  = Some (str "--max-old-space-size=2048").
Proof.
  refine (proj1 (proj2 (build_env (Sim.host (Sim.always (Some 0%Z)))
                          (Sim.proc {[ NODE_OPTIONS := str "--max-old-space-size=2048" ]} [])
                          Inputs.three_talks _ (Some 0%Z) _)) _ _ _).
  - vm_compute. left. reflexivity.
  - vm_compute. reflexivity.
  - discriminate.
Defined.

(** C9 as stated fails when the invoking environment defines
    [NODE_OPTIONS] as the empty string: the build then runs with the
    default hint, not with the invoking environment's value.  And when
    the invoking environment defines [NODE_OPTIONS] without a heap size,
    the build runs with that value and gets no hint. *)
Lemma build_env_claim_fails :
  let H := Sim.host (Sim.always (Some 0%Z)) in
  (let P := Sim.proc {[ NODE_OPTIONS := [] ]} [] in
   let out := run_script (main H P) Inputs.three_talks in
   exists call code,
     In (call, code) (spawns (trace (final out)))
     /\ env P !! NODE_OPTIONS = Some []
     /\ opt_env call !! NODE_OPTIONS = Some (str "--max_old_space_size=4096")
     /\ opt_env call !! NODE_OPTIONS <> env P !! NODE_OPTIONS)
  /\ (let P := Sim.proc {[ NODE_OPTIONS := str "--inspect" ]} [] in
      let out := run_script (main H P) Inputs.three_talks in
      exists call code,
        In (call, code) (spawns (trace (final out)))
        /\ opt_env call !! NODE_OPTIONS = Some (str "--inspect")).
Proof.
  cbn zeta. split.
  - exists (build_call (Sim.host (Sim.always (Some 0%Z)))
              (Sim.proc {[ NODE_OPTIONS := [] ]} []) (Sim.deck_record "talk1")), (Some 0%Z).
    split; [vm_compute; left; reflexivity|].
    split; [vm_compute; reflexivity|].
    split; [vm_compute; reflexivity|].
    vm_compute. discriminate.
  - exists (build_call (Sim.host (Sim.always (Some 0%Z)))
              (Sim.proc {[ NODE_OPTIONS := str "--inspect" ]} [])
              (Sim.deck_record "talk1")), (Some 0%Z).
    split; [vm_compute; left; reflexivity|].
    vm_compute. reflexivity.
Qed.

End BatchClaims.

(** ** The dev launcher against the specification *)

Module DevClaims.
Import ListFacts BuildAll BatchSpec DevSpec EntryFacts DiscoveryFacts.

Section Claims.
Context {W : Type} (H : Host W) (P : process).

Lemma deckName_argument n :
  argv P !! 2%nat = Some n -> truthy n = true -> Dev.deckName P = Some n.
Proof. intros Ha Ht. unfold Dev.deckName. rewrite Ha. cbn. by rewrite Ht. Qed.

Lemma deckName_missing :
  argv P !! 2%nat = None -> env P !! str "DECK" = None -> falsy (Dev.deckName P) = true.
Proof. intros Ha He. unfold Dev.deckName. rewrite Ha. cbn. by rewrite He. Qed.

(** The launcher's exit status once the renderer was spawned. *)
Lemma dev_exit_status w n e w' code :
  Dev.deckName P = Some n -> truthy n = true ->
  existsSync H w (join H (Dev.SLIDES_DIR H P) n) = true ->
  findEntry H w (join H (Dev.SLIDES_DIR H P) n) = inr (Some e) ->
  spawn H w (Dev.serve_call H P (join H (Dev.SLIDES_DIR H P) n) e) = (w', code) ->
  let out := run_script (Dev.script H P) w in
  status out = default 0%Z code
  /\ trace (final out)
     = [Log (starting_message n e);
        Spawn (Dev.serve_call H P (join H (Dev.SLIDES_DIR H P) n) e) code].
Proof.
  intros Hn Ht Hex He Hs. unfold run_script.
  rewrite (dev_resolved H P {| world := w; trace := [] |} n Hn Ht Hex). cbn [world trace]. cbn zeta.
  by rewrite He, Hs.
Qed.

(** C8.  Each configuration error of the dev launcher (no deck name in
    the arguments nor in [DECK], a deck directory that does not exist, a
    deck directory without entry) ends the launcher with status 1 after
    one line on the diagnostic stream, and no child process is spawned. *)
Theorem dev_config_errors (w : W) :
  let out := run_script (Dev.script H P) w in
  let tr := trace (final out) in
  (argv P !! 2%nat = None -> env P !! str "DECK" = None ->
   status out = 1%Z /\ tr = [Err no_name_message] /\ spawns tr = [])
  /\ (forall n, Dev.deckName P = Some n -> truthy n = true ->
        existsSync H w (join H (Dev.SLIDES_DIR H P) n) = false ->
        status out = 1%Z
        /\ tr = [Err (no_folder_message (join H (Dev.SLIDES_DIR H P) n))]
        /\ spawns tr = [])
  /\ (forall n, Dev.deckName P = Some n -> truthy n = true ->
        existsSync H w (join H (Dev.SLIDES_DIR H P) n) = true ->
        findEntry H w (join H (Dev.SLIDES_DIR H P) n) = inr None ->
        status out = 1%Z
        /\ tr = [Err (no_entry_message (join H (Dev.SLIDES_DIR H P) n))]
        /\ spawns tr = []).
Proof.
  cbn zeta. unfold run_script. split; [|split].
  - intros Ha He. rewrite (dev_no_name H P _ (deckName_missing Ha He)). done.
  - intros n Hn Ht Hex.
    rewrite (dev_no_folder H P {| world := w; trace := [] |} n Hn Ht Hex). done.
  - intros n Hn Ht Hex He.
    rewrite (dev_resolved H P {| world := w; trace := [] |} n Hn Ht Hex).
    cbn [world trace]. cbn zeta. rewrite He. done.
Qed.

(** C10.  A directory of [slides/] whose name starts with [.] or [_] is
    in no discovered build set, whatever the selection; given the same
    name as its argument, the dev launcher spawns the renderer on the
    directory's entry. *)
Theorem dev_ignores_hidden_filter (w : W) (n e : jsstring) :
  startsWith n (str ".") = true \/ startsWith n (str "_") = true ->
  existsSync H w (join H (SLIDES_DIR H P) n) = true ->
  findEntry H w (join H (SLIDES_DIR H P) n) = inr (Some e) ->
  argv P !! 2%nat = Some n ->
  (forall only skip st decks st',
     world st = w ->
     discoverDecks H P only skip st = (Ret decks, st') ->
     ~ In n (map name decks))
  /\ exists code,
       trace (final (run_script (Dev.script H P) w))
       = [Log (starting_message n e);
          Spawn (Dev.serve_call H P (join H (SLIDES_DIR H P) n) e) code].
Proof.
  intros Hhid Hex He Ha. split.
  - intros only skip st decks st' <- Hd Hin.
    apply discoverDecks_Ret in Hd as (_ & _ & Hl).
    apply in_map_iff in Hin as (d & <- & Hin).
    destruct (listing_sound H P _ _ _ _ d Hl Hin) as (_ & _ & Hk & _).
    apply keep_true in Hk as (_ & Hdot & Hund & _). destruct Hhid; congruence.
  - assert (Ht : truthy n = true).
    { destruct Hhid as [Hs|Hs]; by apply startsWith_nonempty in Hs. }
    destruct (spawn H w (Dev.serve_call H P (join H (SLIDES_DIR H P) n) e))
      as [w' code] eqn:Hs.
    exists code.
    apply (dev_exit_status w n e w' code (deckName_argument n Ha Ht) Ht Hex He Hs).
Qed.

End Claims.

Lemma dev_ignores_hidden_filter_witness :
  let H := Sim.host (Sim.always (Some 0%Z)) in
  (forall decks st',
     discoverDecks H Inputs.hidden_proc [] [] (Sim.start Inputs.hidden_deck) = (Ret decks, st') ->
     ~ In (str "_draft") (map name decks))
  /\ exists code,
       trace (final (run_script (Dev.script H Inputs.hidden_proc) Inputs.hidden_deck))
       = [Log (starting_message (str "_draft") (str "slides.md"));
          Spawn (Dev.serve_call H Inputs.hidden_proc (str "/repo/slides/_draft") (str "slides.md"))
            code].
Proof.
  cbn zeta.
  destruct (dev_ignores_hidden_filter (Sim.host (Sim.always (Some 0%Z))) Inputs.hidden_proc
              Inputs.hidden_deck (str "_draft") (str "slides.md")) as [Hb Hd].
  - right. vm_compute. reflexivity.
  - vm_compute. reflexivity.
  - vm_compute. reflexivity.
  - vm_compute. reflexivity.
  - split; [|exact Hd]. intros decks st'. by apply Hb.
Defined.

Lemma dev_config_errors_witness :
  let out := run_script (Dev.script (Sim.host (Sim.always (Some 0%Z)))
                           (Sim.proc ∅ [str "node"; str "dev.mjs"; str "nope"]))
               Inputs.three_talks in
  status out = 1%Z
  /\ trace (final out) = [Err (no_folder_message (str "/repo/slides/nope"))]
  /\ spawns (trace (final out)) = [].
Proof.
  refine (proj1 (proj2 (dev_config_errors (Sim.host (Sim.always (Some 0%Z)))
                          (Sim.proc ∅ [str "node"; str "dev.mjs"; str "nope"])
                          Inputs.three_talks)) (str "nope") _ _ _);
    vm_compute; reflexivity.
Defined.

(** C5 at a child that a signal ended: ['close'] reports the code [null],
    [process.exit(null)] exits with 0, and the launcher reports success. *)
Theorem dev_signal_exit :
  let H := Sim.host (Sim.always None) in
  let out := run_script (Dev.script H Inputs.talk_proc) Inputs.three_talks in
  spawns (trace (final out))
  = [(Dev.serve_call H Inputs.talk_proc (str "/repo/slides/talk1") (str "slides.md"), None)]
  /\ status out = 0%Z.
Proof. vm_compute. split; reflexivity. Qed.

End DevClaims.

(** ** Titles of the index page *)

Module TitleClaims.
Import BuildAll BatchSpec TitleSpec BatchFacts.

Example title_front_matter :
  extract_title (doc ["---"; "title: My Talk"; "theme: seriph"; "---"; ""; "# Welcome"]%string)
    (str "talk1") = str "My Talk".
Proof. vm_compute. reflexivity. Qed.

Example title_heading :
  extract_title (doc ["---"; "theme: seriph"; "---"; ""; "# Welcome  "; "text"]%string)
    (str "talk1") = str "Welcome".
Proof. vm_compute. reflexivity. Qed.

Example title_fallback :
  extract_title (doc ["no heading here"; "## second level"]%string) (str "talk1")
  = str "talk1".
Proof. vm_compute. reflexivity. Qed.

Example title_crlf :
  extract_title (str "title: My Talk" ++ [13; 10] ++ str "# Welcome" ++ [13; 10])
    (str "talk1") = str "My Talk".
Proof. vm_compute. reflexivity. Qed.

Example title_spec_agrees :
  let raw := doc ["---"; "title: My Talk"; "---"; "# Welcome"]%string in
  spec_title raw (str "talk1") = extract_title raw (str "talk1").
Proof. vm_compute. reflexivity. Qed.

Section Facts.
Context {W : Type} (H : Host W).

(** A failed read gives the directory name. *)
Lemma title_read_failure w d e message :
  entry d = Some e ->
  readFileSync H w (join H (path d) e) = inl message ->
  title_in H w d = name d.
Proof. intros He Hr. unfold title_in. by rewrite He, Hr. Qed.

(** The index always has one item per deck, whatever the reads do. *)
Lemma titles_complete decks st :
  exists items,
    mapM (fun d => title ← deck_title H d; mret (item (name d) title)) decks st
    = (Ret items, st)
    /\ length items = length decks.
Proof. eexists. split; [apply titles_eq | by rewrite length_map]. Qed.
End Facts.

(** C7 at a document whose [title:] line has no value: the blanks of the
    pattern run over the line break, and the index shows the next line as
    the title, where the rule read line by line gives the first heading. *)
Theorem title_crosses_lines :
  let w := Sim.slides ["talk"]%string Inputs.empty_title in
  title_in (Sim.host (Sim.always (Some 0%Z))) w (Sim.deck_record "talk")
  = str "theme: seriph"
  /\ extract_title Inputs.empty_title (str "talk") = str "theme: seriph"
  /\ spec_title Inputs.empty_title (str "talk") = str "Hello".
Proof. vm_compute. repeat split; reflexivity. Qed.

End TitleClaims.

(** ** Pattern lists and further facts on the matcher *)

Module PatternFacts.
Import BuildAll BatchSpec MoreSpec MatcherFacts.

Lemma trimStart_blank s : Forall (fun c => isSpace c = true) s -> trimStart s = [].
Proof. induction 1 as [|c s Hc _ IH]; cbn; [done | by rewrite Hc]. Qed.

Lemma trimStart_suffix s : exists pre, s = pre ++ trimStart s.
Proof.
  induction s as [|c s [pre IH]]; [by exists []|]. cbn.
  destruct (isSpace c); [|by exists []].
  exists (c :: pre). cbn. by rewrite <- IH.
Qed.

Lemma trimStart_head s c r : trimStart s = c :: r -> isSpace c = false.
Proof.
  induction s as [|d s IH]; cbn; [done|].
  destruct (isSpace d) eqn:E; [done|]. by intros [= <- _].
Qed.

Lemma trimStart_fixed c r : isSpace c = false -> trimStart (c :: r) = c :: r.
Proof. intros E. cbn. by rewrite E. Qed.

(** [trim] leaves nothing more to trim. *)
Lemma trim_trimmed s : trimmed (trim s).
Proof.
  unfold trimmed, trim.
  destruct (trimStart_suffix (rev (trimStart s))) as [pre Hpre].
  destruct (trimStart (rev (trimStart s))) as [|b bs] eqn:Eb; [done|].
  pose proof (trimStart_head _ _ _ Eb) as Hb.
  assert (Hlast : exists x xs, rev (b :: bs) = x :: xs /\ isSpace x = false).
  { destruct (trimStart s) as [|a t] eqn:Ea.
    { cbn in Hpre. by destruct pre. }
    pose proof (trimStart_head _ _ _ Ea) as Ha.
    apply (f_equal (@rev char)) in Hpre. rewrite rev_involutive, rev_app_distr in Hpre.
    destruct (rev (b :: bs)) as [|x xs] eqn:Er.
    { apply (f_equal (@rev char)) in Er. rewrite rev_involutive in Er. done. }
    cbn in Hpre. injection Hpre as <- _. by exists a, xs. }
  destruct Hlast as (x & xs & Er & Hx).
  rewrite Er, (trimStart_fixed x xs Hx), <- Er, rev_involutive.
  by rewrite (trimStart_fixed b bs Hb).
Qed.

Lemma trim_within (Q : char -> Prop) s : Forall Q s -> Forall Q (trim s).
Proof.
  intros Hs. unfold trim.
  assert (Hsuf : forall t, Forall Q t -> Forall Q (trimStart t)).
  { intros t Ht. destruct (trimStart_suffix t) as [pre E]. rewrite E in Ht.
    by apply Forall_app in Ht as [_ ?]. }
  apply Forall_rev, Hsuf, Forall_rev, Hsuf, Hs.
Qed.

Lemma trim_blank s : Forall (fun c => isSpace c = true) s -> trim s = [].
Proof. intros Hs. unfold trim. by rewrite (trimStart_blank s Hs). Qed.

Lemma includes_false s c : includes s c = false <-> Forall (fun x => x <> c) s.
Proof.
  unfold includes. induction s as [|x s IH]; cbn; [by split|].
  rewrite orb_false_iff, IH, Forall_cons, N.eqb_neq.
  split; intros [Hx Hs]; split; auto.
Qed.

Lemma split_segments (Q : char -> Prop) s sep :
  Forall Q s -> Forall (Forall Q) (split s sep).
Proof.
  induction 1 as [|c s Hc _ IH]; cbn [split]; [by repeat constructor|].
  destruct (c =? sep); [by constructor|].
  destruct (split s sep) as [|y r]; [by repeat constructor|].
  apply Forall_cons in IH as [? ?]. by repeat constructor.
Qed.

Lemma split_plain s sep : includes s sep = false -> split s sep = [s].
Proof.
  induction s as [|c s IH]; [done|]. cbn.
  intros [Hc Hs]%orb_false_iff. rewrite N.eqb_sym, Hc. by rewrite (IH Hs).
Qed.

Lemma split_app s rest sep :
  includes s sep = false -> split (s ++ sep :: rest) sep = s :: split rest sep.
Proof.
  induction s as [|c s IH]; cbn [app split].
  - intros _. by rewrite N.eqb_refl.
  - cbn. intros [Hc Hs]%orb_false_iff. rewrite N.eqb_sym, Hc. by rewrite (IH Hs).
Qed.

(** Cutting at the separator undoes joining with it. *)
Lemma split_of_join segs sep :
  segs <> [] ->
  Forall (fun seg => includes seg sep = false) segs ->
  split (Array_join segs [sep]) sep = segs.
Proof.
  induction segs as [|x rest IH]; [done|]. intros _ Hs.
  apply Forall_cons in Hs as [Hx Hrest]. destruct rest as [|y rest].
  - by apply split_plain.
  - change (Array_join (x :: y :: rest) [sep])
      with (x ++ sep :: Array_join (y :: rest) [sep]).
    rewrite (split_app _ _ _ Hx), IH; done.
Qed.

Lemma decomposes_join (Q : char -> Prop) segs c :
  Q c -> segs <> [] -> decomposes Q segs (Array_join segs [c]).
Proof.
  intros Hc. induction segs as [|x rest IH]; [done|]. intros _.
  destruct rest as [|y rest]; [constructor|].
  change (Array_join (x :: y :: rest) [c]) with (x ++ [c] ++ Array_join (y :: rest) [c]).
  constructor; [by repeat constructor | by apply IH].
Qed.

Lemma pattern_list_In p v :
  In p (pattern_list v) ->
  truthy p = true /\ exists seg, In seg (split (default [] v) (ch ",")) /\ p = trim seg.
Proof.
  unfold pattern_list. intros [Hin Ht]%filter_In.
  apply in_map_iff in Hin as (seg & <- & Hseg). eauto.
Qed.

Lemma pattern_list_patterns (v : option jsstring) (p : jsstring) :
  In p (pattern_list v) -> clean_pattern p.
Proof.
  intros (Ht & seg & Hseg & ->)%pattern_list_In. repeat split.
  - by destruct (trim seg).
  - apply trim_trimmed.
  - apply includes_false, trim_within, includes_false.
    pose proof (split_no_sep (default [] v) (ch ",")) as Hs.
    rewrite Forall_forall in Hs. by apply Hs, list_elem_of_In.
Qed.

(** X1.  Every pattern the script reads from [SLIDE_DECKS] or
    [SKIP_DECKS] is non-empty, has no blank at either end and contains no
    comma. *)
Theorem pattern_list_clean (P : process) (p : jsstring) :
  In p (ONLY P ++ SKIP P) -> p <> [] /\ trim p = p /\ ~ In (ch ",") p.
Proof.
  intros Hin.
  assert (Hc : clean_pattern p).
  { apply in_app_or in Hin as [Hin|Hin]; by apply pattern_list_patterns in Hin. }
  destruct Hc as (? & ? & Hcomma). repeat split; try done.
  intros Hin'. apply includes_In in Hin'. congruence.
Qed.

Lemma pattern_list_clean_witness :
  str "old-*" <> [] /\ trim (str "old-*") = str "old-*" /\ ~ In (ch ",") (str "old-*").
Proof.
  apply (pattern_list_clean (Sim.proc {[ str "SKIP_DECKS" := str " a , old-* ,," ]} [])
           (str "old-*")).
  vm_compute. right. left. reflexivity.
Defined.

(** X2.  Round trip: clean patterns joined by commas are read back as
    they were, in order. *)
Theorem pattern_list_join (ps : list jsstring) :
  Forall clean_pattern ps ->
  pattern_list (Some (Array_join ps (str ","))) = ps.
Proof.
  intros Hps. unfold pattern_list. cbn [default from_option id].
  destruct ps as [|p0 ps0]; [reflexivity|]. set (ps := p0 :: ps0) in *.
  change (str ",") with [ch ","]. rewrite split_of_join; [|done|].
  - induction Hps as [|p l (Hne & Htrim & _) _ IH]; [done|]. cbn [map List.filter].
    rewrite Htrim. destruct p; [done|]. cbn [truthy]. by rewrite IH.
  - eapply Forall_impl; [exact Hps|]. by intros p (_ & _ & ?).
Qed.

Lemma pattern_list_join_witness :
  pattern_list (Some (str "talk1,old-*")) = [str "talk1"; str "old-*"].
Proof.
  apply (pattern_list_join [str "talk1"; str "old-*"]).
  repeat constructor; try done; vm_compute; reflexivity.
Defined.

Lemma pattern_list_blank v : blank v -> pattern_list v = [].
Proof.
  destruct v as [s|]; [|reflexivity]. cbn [blank]. intros Hs.
  unfold pattern_list. cbn [default from_option id].
  pose proof (split_segments _ s (ch ",") Hs) as Hsegs.
  pose proof (split_no_sep s (ch ",")) as Hno.
  induction (split s (ch ",")) as [|seg segs IH]; [done|].
  apply Forall_cons in Hsegs as [Hseg Hsegs]. apply Forall_cons in Hno as [Hn Hno].
  cbn [map List.filter]. rewrite trim_blank; [by apply IH|].
  apply includes_false in Hn. rewrite Forall_forall in Hseg, Hn |- *.
  intros c Hc. destruct (Hseg c Hc) as [?|?]; [done|]. by destruct (Hn c Hc).
Qed.

(** X3.  When [SLIDE_DECKS] and [SKIP_DECKS] are unset or hold only blanks
    and commas, both pattern lists are empty and the selection keeps
    every name. *)
Theorem no_patterns_select_all (P : process) (n : jsstring) :
  blank (env P !! str "SLIDE_DECKS") ->
  blank (env P !! str "SKIP_DECKS") ->
  ONLY P = [] /\ SKIP P = []
  /\ isOnly (ONLY P) n = true /\ shouldSkip (SKIP P) n = false.
Proof.
  intros Ho Hs. unfold ONLY, SKIP.
  rewrite (pattern_list_blank _ Ho), (pattern_list_blank _ Hs). done.
Qed.

Lemma no_patterns_select_all_witness :
  let P := Sim.proc {[ str "SLIDE_DECKS" := str " , ," ]} [] in
  ONLY P = [] /\ SKIP P = []
  /\ isOnly (ONLY P) (str "talk1") = true /\ shouldSkip (SKIP P) (str "talk1") = false.
Proof.
  apply (no_patterns_select_all (Sim.proc {[ str "SLIDE_DECKS" := str " , ," ]} [])
           (str "talk1")).
  - vm_compute.
    repeat (constructor; [first [left; reflexivity | right; reflexivity]|]). constructor.
  - vm_compute. exact I.
Defined.

(** X4.  Every name matches itself taken as a pattern, whatever
    characters it contains. *)
Theorem matches_self (n : jsstring) : matches n n = true.
Proof.
  apply matches_exact. destruct n as [|c n]; [by left|]. right.
  destruct (includes (c :: n) (ch "*")); [|done].
  rewrite <- (split_join (c :: n) (ch "*")) at 2.
  apply decomposes_join; [reflexivity | apply split_nonempty].
Qed.

(** X5.  A pattern [p*] whose [p] has no star is a prefix test: it
    matches exactly the names that start with [p] and go on without a
    line terminator. *)
Theorem matches_prefix (name p : jsstring) :
  includes p (ch "*") = false ->
  (matches name (p ++ str "*") = true
   <-> exists rest, name = p ++ rest /\ Forall not_terminator rest).
Proof.
  intros Hp. rewrite matches_exact.
  assert (Hinc : includes (p ++ str "*") (ch "*") = true).
  { apply includes_In, in_or_app. right. by left. }
  rewrite Hinc. change (str "*") with (ch "*" :: []).
  rewrite (split_app p [] (ch "*") Hp). cbn [split].
  rewrite decomposes_cons. split.
  - intros [E|(gap & s' & -> & Hgap & Hd)]; [by destruct p|].
    apply decomposes_single in Hd as ->. exists gap. by rewrite app_nil_r.
  - intros (rest & -> & Hrest). right. exists rest, [].
    rewrite app_nil_r. repeat split; [done|constructor].
Qed.

Lemma matches_prefix_witness :
  matches (str "old-1") (str "old-" ++ str "*") = true
  <-> exists rest, str "old-1" = str "old-" ++ rest /\ Forall not_terminator rest.
Proof. apply (matches_prefix (str "old-1") (str "old-")). vm_compute. reflexivity. Defined.

(** X6.  For a pattern taken from the environment the matcher never
    falls back on its empty-pattern case: the pattern matches a name iff
    the name is its literal segments in order with runs free of line
    terminators in between, or, without a star, iff the name is the
    pattern. *)
Theorem env_pattern_anchored (P : process) (name p : jsstring) :
  In p (ONLY P ++ SKIP P) ->
  (matches name p = true
   <-> if includes p (ch "*")
       then decomposes not_terminator (split p (ch "*")) name
       else name = p).
Proof.
  intros Hin. rewrite matches_exact.
  assert (Hne : p <> []).
  { apply in_app_or in Hin as [Hin|Hin]; by apply pattern_list_patterns in Hin as [? _]. }
  split; [by intros [?|?] | by right].
Qed.

Lemma env_pattern_anchored_witness :
  matches (str "old-1") (str "old-*") = true
  <-> decomposes not_terminator [str "old-"; []] (str "old-1").
Proof.
  apply (env_pattern_anchored (Sim.proc {[ str "SKIP_DECKS" := str "draft, old-*" ]} [])
           (str "old-1") (str "old-*")).
  vm_compute. right. left. reflexivity.
Defined.

End PatternFacts.

(** ** More on discovery *)

Module DiscoveryMore.
Import ListFacts BuildAll BatchSpec MoreSpec DiscoveryFacts BatchFacts.

Lemma filterE_filter {A} (f : A -> exn + bool) (l r : list A) :
  filterE f l = inr r -> r = filter (fun x => f x = inr true) l.
Proof.
  revert r. induction l as [|a l IH]; intros r; cbn [filterE].
  - by intros [= <-].
  - cbv [mbind exn_bind mret exn_ret].
    destruct (f a) as [|b] eqn:Ea; [done|].
    destruct (filterE f l) as [|r']; [done|]. intros [= <-].
    rewrite filter_cons, (IH r' eq_refl), Ea.
    destruct b; by destruct (decide _).
Qed.

Lemma filterE_throws {A} (f : A -> exn + bool) (l : list A) x e :
  In x l -> f x = inl e -> exists e', filterE f l = inl e'.
Proof.
  induction l as [|a l IH]; [done|]. intros [->|Hin] Hx; cbn [filterE];
    cbv [mbind exn_bind mret exn_ret].
  - rewrite Hx. by eexists.
  - destruct (f a); [by eexists|]. destruct (IH Hin Hx) as [e' ->]. by eexists.
Qed.

Lemma mapE_keys {A B} (g : A -> exn + B) (key : B -> A) l ys :
  (forall x y, g x = inr y -> key y = x) ->
  mapE g l = inr ys -> map key ys = l.
Proof.
  intros Hkey. revert ys. induction l as [|a l IH]; intros ys; cbn [mapE].
  - by intros [= <-].
  - cbv [mbind exn_bind mret exn_ret].
    destruct (g a) as [|b] eqn:Ea; [done|].
    destruct (mapE g l) as [|r]; [done|]. intros [= <-].
    cbn. by rewrite (Hkey a b Ea), (IH r eq_refl).
Qed.

Section Facts.
Context {W : Type} (H : Host W) (P : process).

Lemma candidates_md c : In c candidates -> endsWith c (str ".md") = true.
Proof. cbn. intros [<-|[<-|[<-|[<-|[]]]]]; reflexivity. Qed.

(** X7.  An entry that [findEntry] resolves always ends in [.md] and is
    not empty; it is one of the four canonical names, present in the
    deck directory, or a name that the listing of the directory
    contains. *)
Theorem findEntry_md (w : W) (deckPath : pathname) (e : jsstring) :
  findEntry H w deckPath = inr (Some e) ->
  endsWith e (str ".md") = true
  /\ e <> []
  /\ ((In e candidates /\ existsSync H w (join H deckPath e) = true)
      \/ exists files, readdirSync H w deckPath = inr files /\ In e files).
Proof.
  unfold findEntry. intros He.
  assert (Hmd : endsWith e (str ".md") = true
                /\ ((In e candidates /\ existsSync H w (join H deckPath e) = true)
                    \/ exists files, readdirSync H w deckPath = inr files /\ In e files)).
  { destruct (List.find _ candidates) as [c|] eqn:Ef.
    - injection He as ->. apply find_some in Ef as [Hin Hex].
      split; [by apply candidates_md | by left].
    - cbv [mbind exn_bind mret exn_ret] in He.
      destruct (readdirSync H w deckPath) as [|files]; [done|].
      injection He as He.
      destruct (List.filter _ files) as [|f md] eqn:Emd; [done|].
      injection He as ->.
      assert (Hin : In e (List.filter (fun f => endsWith f (str ".md")) files))
        by (rewrite Emd; by left).
      apply filter_In in Hin as [Hin Hf]. split; [done|]. right. by exists files. }
  destruct Hmd as [Hmd Hsrc]. split; [done|]. split; [|done].
  intros ->. by vm_compute in Hmd.
Qed.

(** X8.  When discovery returns, the names of its decks are the listing
    of [slides/] with exactly those names kept that are a directory, do
    not start with [.] or [_], pass the selection and have an entry;
    order is the listing's.  Every deck carries the path of its
    directory and the entry [findEntry] resolves there, never [null]. *)
Theorem discovery_exact (only skip : list jsstring) (st st' : state W)
    (names : list jsstring) (decks : list Deck) :
  discoverDecks H P only skip st = (Ret decks, st') ->
  readdirSync H (world st) (SLIDES_DIR H P) = inr names ->
  map name decks
  = filter (fun n => keep H P only skip (world st) n = inr true) names
  /\ (forall n,
        keep H P only skip (world st) n = inr true <->
        isDirectory H (world st) (join H (SLIDES_DIR H P) n) = inr true
        /\ startsWith n (str ".") = false
        /\ startsWith n (str "_") = false
        /\ Retained only skip n
        /\ exists e, findEntry H (world st) (join H (SLIDES_DIR H P) n) = inr (Some e))
  /\ Forall (fun d =>
               path d = join H (SLIDES_DIR H P) (name d)
               /\ exists e, entry d = Some e
                            /\ findEntry H (world st) (path d) = inr (Some e))
       decks.
Proof.
  intros Hd Hn. apply discoverDecks_Ret in Hd as (_ & _ & Hl).
  split; [|split].
  - unfold listing in Hl. cbv [mbind exn_bind] in Hl. rewrite Hn in Hl.
    destruct (filterE (keep H P only skip (world st)) names) as [|dirs] eqn:Ed; [done|].
    rewrite <- (filterE_filter _ _ _ Ed).
    eapply mapE_keys; [|exact Hl].
    intros x y. cbv [mret exn_ret]. destruct (findEntry H _ _); [done|]. by intros [= <-].
  - intros n. rewrite keep_true, selected_Retained. done.
  - apply Forall_forall. intros d Hin%list_elem_of_In.
    destruct (listing_sound H P _ _ _ _ d Hl Hin) as (_ & Hp & _ & He). done.
Qed.

(** X9.  Discovery errors are fatal to the batch run: when [slides/]
    exists but cannot be listed, or the [stat] of one of its listed
    names throws (hidden and deselected names included), the run prints
    one "Build failed" line, builds nothing, writes nothing and exits
    with 1. *)
Theorem discovery_errors_fatal (w : W) :
  existsSync H w (SLIDES_DIR H P) = true ->
  (exists e, readdirSync H w (SLIDES_DIR H P) = inl e)
  \/ (exists names n e,
        readdirSync H w (SLIDES_DIR H P) = inr names /\ In n names
        /\ isDirectory H w (join H (SLIDES_DIR H P) n) = inl e) ->
  let out := run_script (main H P) w in
  status out = 1%Z
  /\ (exists message, trace (final out) = [build_failed message])
  /\ spawns (trace (final out)) = []
  /\ writes (trace (final out)) = [].
Proof.
  intros Hex Hcause. cbn zeta.
  assert (Hl : exists e, listing H P (ONLY P) (SKIP P) w = inl e).
  { unfold listing. cbv [mbind exn_bind].
    destruct Hcause as [[e ->]|(names & n & e & -> & Hin & Hs)]; [by eexists|].
    destruct (filterE_throws (keep H P (ONLY P) (SKIP P) w) names n e Hin) as [e' ->].
    - rewrite keep_unfold. by rewrite Hs.
    - by eexists. }
  destruct Hl as [e Hl]. rewrite main_unfold. cbn zeta. rewrite Hex, Hl.
  cbn. repeat split. by eexists.
Qed.

End Facts.

Lemma findEntry_md_witness :
  endsWith (str "intro.md") (str ".md") = true
  /\ str "intro.md" <> []
  /\ ((In (str "intro.md") candidates
       /\ existsSync (Sim.host (Sim.always (Some 0%Z)))
            (Sim.deck "talk" "intro.md" []) (str "/repo/slides/talk/intro.md") = true)
      \/ exists files,
           readdirSync (Sim.host (Sim.always (Some 0%Z)))
             (Sim.deck "talk" "intro.md" []) (str "/repo/slides/talk") = inr files
           /\ In (str "intro.md") files).
Proof.
  apply (findEntry_md (Sim.host (Sim.always (Some 0%Z)))
           (Sim.deck "talk" "intro.md" []) (str "/repo/slides/talk") (str "intro.md")).
  vm_compute. reflexivity.
Defined.

Lemma discovery_exact_witness :
  map name [Sim.deck_record "talk1"; Sim.deck_record "talk3"]
  = filter (fun n => keep (Sim.host (Sim.always (Some 0%Z))) (Sim.proc ∅ [])
                       [] [str "talk2"] Inputs.three_talks n = inr true)
      [str "talk1"; str "talk2"; str "talk3"].
Proof.
  refine (proj1 (discovery_exact (Sim.host (Sim.always (Some 0%Z))) (Sim.proc ∅ [])
                   [] [str "talk2"] (Sim.start Inputs.three_talks)
                   (Sim.start Inputs.three_talks) _ _ _ _));
    vm_compute; reflexivity.
Defined.

Lemma discovery_errors_fatal_witness :
  let out := run_script (main (Sim.host (Sim.always (Some 0%Z))) (Sim.proc ∅ []))
               [(str "/repo/slides", Sim.Dir [str ".ghost"])] in
  status out = 1%Z
  /\ (exists message, trace (final out) = [build_failed message])
  /\ spawns (trace (final out)) = []
  /\ writes (trace (final out)) = [].
Proof.
  apply (discovery_errors_fatal (Sim.host (Sim.always (Some 0%Z))) (Sim.proc ∅ [])
           [(str "/repo/slides", Sim.Dir [str ".ghost"])]).
  - vm_compute. reflexivity.
  - right. exists [str ".ghost"], (str ".ghost"), Sim.enoent.
    split; [vm_compute; reflexivity|]. split; [left; reflexivity | vm_compute; reflexivity].
Defined.

End DiscoveryMore.

(** ** More on the batch flow *)

Module BatchMore.
Import ListFacts BuildAll BatchSpec MoreSpec DiscoveryFacts BatchFacts.

Section Facts.
Context {W : Type} (H : Host W) (P : process).

Lemma discovered_decks w decks :
  existsSync H w (SLIDES_DIR H P) = true ->
  listing H P (ONLY P) (SKIP P) w = inr decks ->
  discoverDecks H P (ONLY P) (SKIP P) {| world := w; trace := [] |}
  = (Ret decks, {| world := w; trace := [] |}).
Proof. intros He Hl. rewrite discoverDecks_unfold. cbn [world]. by rewrite He, Hl. Qed.

Lemma ok_builds_zero (l : list Deck) :
  Forall (fun ck : spawn_call * option Z => snd ck = Some 0%Z) (map (ok_build H P) l).
Proof. apply Forall_forall. intros ck Hin%list_elem_of_In. by apply in_map_iff in Hin as (d & <- & _). Qed.

(** X10.  A batch run ends in one of three ways: with status 0 having
    spawned and written nothing; with status 0 after children that all
    ended with code 0 and exactly one write, that of [dist/index.html];
    or with status 1, nothing written, and a line on the diagnostic
    stream as its last output.  No other status, file or number of
    writes occurs. *)
Theorem batch_outcomes (w : W) :
  let out := run_script (main H P) w in
  let tr := trace (final out) in
  (status out = 0%Z /\ spawns tr = [] /\ writes tr = [])
  \/ (status out = 0%Z /\ spawns tr <> []
      /\ Forall (fun ck => snd ck = Some 0%Z) (spawns tr)
      /\ exists page, writes tr = [(index_path H P, page)])
  \/ (status out = 1%Z /\ writes tr = [] /\ exists line, last tr = Some (Err line)).
Proof.
  cbn zeta.
  destruct (main_shape H P w) as [(_ & Hst & Ht)|[(_ & e & _ & Hst & Ht)|(_ & decks & _ & Hc)]].
  - right. right. rewrite Hst, Ht. repeat split. by eexists.
  - right. right. rewrite Hst, Ht. repeat split. by eexists.
  - destruct Hc as [(_ & Hst & Ht)|[(Hne & Hst & Hs & w1 & Hw)|[(_ & Hst & Hw & [e He] & _)|Hc]]].
    + left. by rewrite Hst, Ht.
    + right. left. rewrite Hst, Hs, Hw. repeat split.
      * by destruct decks.
      * apply ok_builds_zero.
      * by eexists.
    + right. right. rewrite Hst, Hw, He. repeat split. by eexists.
    + destruct Hc as (Hst & Hw & k & d & code & _ & _ & _ & Hlast).
      right. right. rewrite Hst, Hw, Hlast. repeat split. by eexists.
Qed.

(** X11.  The decks are built in discovery order, one child process
    each: the children of a run are the builds of the first [k]
    discovered decks, all ended with code 0, possibly followed by the
    build of deck [k] that ended otherwise. *)
Theorem builds_in_order (w : W) (decks : list Deck) (st' : state W) :
  discoverDecks H P (ONLY P) (SKIP P) {| world := w; trace := [] |} = (Ret decks, st') ->
  let tr := trace (final (run_script (main H P) w)) in
  exists k,
    (k <= length decks)%nat
    /\ (spawns tr = map (fun d => (build_call H P d, Some 0%Z)) (take k decks)
        \/ exists d code,
             decks !! k = Some d /\ code <> Some 0%Z
             /\ spawns tr
                = map (fun d => (build_call H P d, Some 0%Z)) (take k decks)
                    ++ [(build_call H P d, code)]).
Proof.
  intros Hd. apply discoverDecks_Ret in Hd as (_ & Hex & Hl). cbn [world] in Hex, Hl.
  cbn zeta.
  destruct (main_shape H P w) as [(Hex' & _)|[(_ & e & Hl' & _)|(_ & decks' & Hl' & Hc)]];
    [congruence | congruence |].
  assert (decks' = decks) as -> by congruence.
  destruct Hc as [(-> & _ & Ht)|[(_ & _ & Hs & _)|[(_ & _ & _ & _ & k & Hs)|Hc]]].
  - exists 0%nat. split; [done|]. left. by rewrite Ht.
  - exists (length decks). split; [done|]. left. by rewrite firstn_all.
  - exists (k `min` length decks)%nat. split; [lia|]. left.
    rewrite Hs. f_equal.
    destruct (decide (k <= length decks)%nat) as [Hk|Hk].
    + by rewrite Nat.min_l.
    + rewrite Nat.min_r, !take_ge by lia. done.
  - destruct Hc as (_ & _ & k & d & code & Hk & Hcode & Hs & _).
    exists k. split; [apply lookup_lt_Some in Hk; lia|]. right. by exists d, code.
Qed.

(** X12.  Every child process of a batch run is
    [npx -y slidev build <entry> --base /<name>/ --out <dist>/<name>],
    run in the directory of a discovered deck, with that deck's
    resolved entry (never [null]) and through a shell on win32 only. *)
Theorem build_call_shape (w : W) (call : spawn_call) (code : option Z) :
  In (call, code) (spawns (trace (final (run_script (main H P) w)))) ->
  exists decks st' d e,
    discoverDecks H P (ONLY P) (SKIP P) {| world := w; trace := [] |} = (Ret decks, st')
    /\ In d decks /\ entry d = Some e
    /\ findEntry H w (join H (SLIDES_DIR H P) (name d)) = inr (Some e)
    /\ cmd call = str "npx"
    /\ args call
       = [Some (str "-y"); Some (str "slidev"); Some (str "build"); Some e;
          Some (str "--base"); Some (str "/" ++ name d ++ str "/");
          Some (str "--out"); Some (join H (DIST_DIR H P) (name d))]
    /\ opt_cwd call = join H (SLIDES_DIR H P) (name d)
    /\ (opt_shell call = true <-> platform P = str "win32").
Proof.
  intros Hin.
  assert (Hdeck : exists decks d,
             existsSync H w (SLIDES_DIR H P) = true
             /\ listing H P (ONLY P) (SKIP P) w = inr decks
             /\ In d decks /\ call = build_call H P d).
  { destruct (main_shape H P w) as [(_ & _ & Ht)|[(_ & e & _ & _ & Ht)|(Hex & decks & Hl & Hc)]].
    - rewrite Ht in Hin. destruct Hin.
    - rewrite Ht in Hin. destruct Hin.
    - exists decks.
      destruct Hc as [(_ & _ & Ht)|[(_ & _ & Hs & _)|[(_ & _ & _ & _ & k & Hs)|Hc]]].
      + rewrite Ht in Hin. destruct Hin.
      + rewrite Hs in Hin. apply in_map_iff in Hin as (d & [= <- _] & Hd). by exists d.
      + rewrite Hs in Hin. apply in_map_iff in Hin as (d & [= <- _] & Hd).
        exists d. repeat split; try done.
        apply list_elem_of_In. apply list_elem_of_In in Hd.
        by eapply (subseteq_take k decks).
      + destruct Hc as (_ & _ & k & d & code' & Hk & _ & Hs & _).
        rewrite Hs in Hin. apply in_app_or in Hin as [Hin|[[= <- _]|[]]].
        * apply in_map_iff in Hin as (d' & [= <- _] & Hd).
          exists d'. repeat split; try done.
          apply list_elem_of_In. apply list_elem_of_In in Hd.
          by eapply (subseteq_take k decks).
        * exists d. repeat split; try done.
          apply list_elem_of_In. by eapply list_elem_of_lookup_2. }
  destruct Hdeck as (decks & d & Hex & Hl & Hd & ->).
  destruct (listing_sound H P _ _ _ _ d Hl Hd) as (_ & Hp & _ & e & He & Hf).
  exists decks, {| world := w; trace := [] |}, d, e.
  split; [by apply discovered_decks|]. split; [done|]. split; [done|].
  split; [by rewrite <- Hp|].
  cbn [build_call cmd args opt_cwd opt_shell]. unfold build_args. rewrite He, Hp.
  repeat split; try done; apply bool_decide_eq_true.
Qed.

(** X13.  What the index page holds: if a run writes a file, it is
    [dist/index.html] and its content is the page template around one
    item per discovered deck, in discovery order, each linking to
    [./<name>/] under the title read from the deck's entry. *)
Theorem index_content (w : W) (file : pathname * jsstring) :
  In file (writes (trace (final (run_script (main H P) w)))) ->
  exists decks st' w1,
    discoverDecks H P (ONLY P) (SKIP P) {| world := w; trace := [] |} = (Ret decks, st')
    /\ file = (join H (DIST_DIR H P) (str "index.html"),
               html (Array_join
                       (map (fun d => item (name d) (title_in H w1 d)) decks) nl)).
Proof.
  intros Hin.
  destruct (main_shape H P w) as [(_ & _ & Ht)|[(_ & e & _ & _ & Ht)|(Hex & decks & Hl & Hc)]].
  - rewrite Ht in Hin. destruct Hin.
  - rewrite Ht in Hin. destruct Hin.
  - destruct Hc as [(_ & _ & Ht)|[(_ & _ & _ & w1 & Hw)|[(_ & _ & Hw & _)|(_ & Hw & _)]]].
    + rewrite Ht in Hin. destruct Hin.
    + rewrite Hw in Hin. destruct Hin as [<-|[]].
      exists decks, {| world := w; trace := [] |}, w1.
      split; [by apply discovered_decks | done].
    + rewrite Hw in Hin. destruct Hin.
    + rewrite Hw in Hin. destruct Hin.
Qed.

Lemma buildDeck_success d st w1 w2 :
  mkdirSync H (world st) (join H (DIST_DIR H P) (name d)) = inr w1 ->
  spawn H w1 (build_call H P d) = (w2, Some 0%Z) ->
  buildDeck H P d st
  = (Ret tt, {| world := w2; trace := trace st ++ deck_events H P d |}).
Proof.
  intros Hmk Hsp. unfold buildDeck, run.
  cbv [mbind M_bind console_log emit write spawn_child throw mret M_ret]. cbn [world trace].
  rewrite Hmk. cbn [world trace]. fold (build_call H P d). rewrite Hsp. cbn [world trace].
  rewrite bool_decide_eq_true_2 by done. cbn [world trace]. unfold deck_events.
  rewrite <- !(@app_assoc event). reflexivity.
Qed.

Lemma for_of_success decks st :
  obliging H ->
  exists w',
    for_of decks (buildDeck H P) st
    = (Ret tt, {| world := w'; trace := trace st ++ concat (map (deck_events H P) decks) |}).
Proof.
  intros (Hmk & _ & Hsp). revert st.
  induction decks as [|d decks IH]; intros st; cbn [for_of map concat].
  - exists (world st). rewrite app_nil_r. by destruct st.
  - destruct (Hmk (world st) (join H (DIST_DIR H P) (name d))) as [w1 Hw1].
    destruct (spawn H w1 (build_call H P d)) as [w2 code] eqn:Hw2.
    assert (code = Some 0%Z) as -> by (rewrite <- (Hsp w1 (build_call H P d)); by rewrite Hw2).
    cbv [mbind M_bind]. rewrite (buildDeck_success d st w1 w2 Hw1 Hw2).
    destruct (IH {| world := w2; trace := trace st ++ deck_events H P d |}) as [w' Hw'].
    exists w'. cbv [mbind M_bind] in Hw'. rewrite Hw'. cbn [trace].
    by rewrite <- (@app_assoc event).
Qed.

(** X14.  On a host where making directories, writing files and the
    renderer never fail, a run that discovers at least one deck exits
    with 0 and its whole output is: the "Found" line, [mkdir dist], for
    each deck in order its four lines, the [mkdir] of its output
    directory, its build and the "Built" line, then [mkdir dist], the
    write of the index page and the two closing lines. *)
Theorem batch_success (w : W) (decks : list Deck) (st' : state W) :
  obliging H ->
  discoverDecks H P (ONLY P) (SKIP P) {| world := w; trace := [] |} = (Ret decks, st') ->
  decks <> [] ->
  let out := run_script (main H P) w in
  status out = 0%Z
  /\ exists w1, trace (final out) = success_trace H P decks (page_in H w1 decks).
Proof.
  intros Hob Hd Hne. apply discoverDecks_Ret in Hd as (_ & Hex & Hl).
  cbn [world] in Hex, Hl. cbn zeta. rewrite main_unfold. cbn zeta. rewrite Hex, Hl.
  destruct decks as [|d0 decks0]; [done|]. cbn [length Nat.eqb].
  set (decks := d0 :: decks0).
  pose proof Hob as (Hmk & Hwr & _).
  destruct (Hmk w (DIST_DIR H P)) as [w0 ->].
  destruct (for_of_success decks
              {| world := w0;
                 trace := [Log (found_message decks)] ++ [Mkdir (DIST_DIR H P)] |} Hob)
    as [w1 ->].
  rewrite generateIndex_unfold. cbn [world trace].
  destruct (Hmk w1 (DIST_DIR H P)) as [w2 ->].
  destruct (Hwr w2 (index_path H P) (page_in H w2 decks)) as [w3 ->].
  cbn [status final trace]. split; [done|]. exists w2.
  unfold success_trace. rewrite <- !(@app_assoc event). reflexivity.
Qed.

End Facts.

Lemma builds_in_order_witness :
  let H := Sim.host (Sim.fails_in "talk2" (Some 1%Z)) in
  let P := Sim.proc ∅ [] in
  exists k,
    (k <= 3)%nat
    /\ (spawns (trace (final (run_script (main H P) Inputs.three_talks)))
        = map (fun d => (build_call H P d, Some 0%Z))
            (take k [Sim.deck_record "talk1"; Sim.deck_record "talk2"; Sim.deck_record "talk3"])
        \/ exists d code,
             [Sim.deck_record "talk1"; Sim.deck_record "talk2"; Sim.deck_record "talk3"] !! k
             = Some d
             /\ code <> Some 0%Z
             /\ spawns (trace (final (run_script (main H P) Inputs.three_talks)))
                = map (fun d => (build_call H P d, Some 0%Z))
                    (take k [Sim.deck_record "talk1"; Sim.deck_record "talk2";
                             Sim.deck_record "talk3"])
                    ++ [(build_call H P d, code)]).
Proof.
  apply (builds_in_order (Sim.host (Sim.fails_in "talk2" (Some 1%Z))) (Sim.proc ∅ [])
           Inputs.three_talks
           [Sim.deck_record "talk1"; Sim.deck_record "talk2"; Sim.deck_record "talk3"]
           (Sim.start Inputs.three_talks)).
  vm_compute. reflexivity.
Defined.

Lemma build_call_shape_witness :
  let H := Sim.host (Sim.always (Some 0%Z)) in
  let P := Sim.proc ∅ [] in
  exists decks st' d e,
    discoverDecks H P (ONLY P) (SKIP P) (Sim.start Inputs.three_talks) = (Ret decks, st')
    /\ In d decks /\ entry d = Some e
    /\ findEntry H Inputs.three_talks (join H (SLIDES_DIR H P) (name d)) = inr (Some e)
    /\ cmd (build_call H P (Sim.deck_record "talk2")) = str "npx"
    /\ args (build_call H P (Sim.deck_record "talk2"))
       = [Some (str "-y"); Some (str "slidev"); Some (str "build"); Some e;
          Some (str "--base"); Some (str "/" ++ name d ++ str "/");
          Some (str "--out"); Some (join H (DIST_DIR H P) (name d))]
    /\ opt_cwd (build_call H P (Sim.deck_record "talk2")) = join H (SLIDES_DIR H P) (name d)
    /\ (opt_shell (build_call H P (Sim.deck_record "talk2")) = true
        <-> platform P = str "win32").
Proof.
  apply (build_call_shape (Sim.host (Sim.always (Some 0%Z))) (Sim.proc ∅ [])
           Inputs.three_talks
           (build_call (Sim.host (Sim.always (Some 0%Z))) (Sim.proc ∅ [])
              (Sim.deck_record "talk2"))
           (Some 0%Z)).
  vm_compute. right. left. reflexivity.
Defined.

Lemma index_content_witness :
  let H := Sim.host (Sim.always (Some 0%Z)) in
  let P := Sim.proc ∅ [] in
  exists decks st' w1,
    discoverDecks H P (ONLY P) (SKIP P) (Sim.start Inputs.three_talks) = (Ret decks, st')
    /\ (index_path H P,
        page_in H Inputs.three_talks
          [Sim.deck_record "talk1"; Sim.deck_record "talk2"; Sim.deck_record "talk3"])
       = (join H (DIST_DIR H P) (str "index.html"),
          html (Array_join (map (fun d => item (name d) (title_in H w1 d)) decks) nl)).
Proof.
  apply (index_content (Sim.host (Sim.always (Some 0%Z))) (Sim.proc ∅ [])
           Inputs.three_talks).
  vm_compute. left. reflexivity.
Defined.

Lemma batch_success_witness :
  let H := Sim.host (Sim.always (Some 0%Z)) in
  let P := Sim.proc ∅ [] in
  let out := run_script (main H P) Inputs.three_talks in
  status out = 0%Z
  /\ exists w1,
       trace (final out)
       = success_trace H P
           [Sim.deck_record "talk1"; Sim.deck_record "talk2"; Sim.deck_record "talk3"]
           (page_in H w1
              [Sim.deck_record "talk1"; Sim.deck_record "talk2"; Sim.deck_record "talk3"]).
Proof.
  apply (batch_success (Sim.host (Sim.always (Some 0%Z))) (Sim.proc ∅ [])
           Inputs.three_talks
           [Sim.deck_record "talk1"; Sim.deck_record "talk2"; Sim.deck_record "talk3"]
           (Sim.start Inputs.three_talks)).
  - repeat split; intros; by eexists.
  - vm_compute. reflexivity.
  - discriminate.
Defined.

End BatchMore.

(** ** More on titles *)

Module TitleMore.
Import BuildAll BatchSpec MoreSpec MatcherFacts PatternFacts BatchFacts RegExp.

(** Terms outside the group leave the captures alone. *)
Lemma run_keeps_caps ml ts :
  Forall plain ts ->
  forall prev cp s cp', run ml ts prev cp s = Some cp' -> cp' = cp.
Proof.
  induction 1 as [|t ts Ht _ IH]; intros prev cp s cp'; [by intros [= <-]|].
  destruct t; try done; cbn [run].
  - destruct (at_bol ml prev); [apply IH | done].
  - destruct (at_eol ml s); [apply IH | done].
  - destruct s as [|c s]; [done|]. destruct (atom_ok a c); [apply IH | done].
  - change (run ml (TStar a :: ts) prev cp s = Some cp' -> cp' = cp).
    revert prev. induction s as [|c s IHs]; intros prev; rewrite run_star_unfold.
    + apply IH.
    + destruct (atom_ok a c); [|apply IH].
      destruct (run ml (TStar a :: ts) (Some c) cp s) as [r|] eqn:E.
      * intros [= <-]. by apply (IHs (Some c)).
      * apply IH.
Qed.

(** Terms before the group only move forward in the input. *)
Lemma run_skip_plain ml pre ts :
  Forall plain pre ->
  forall prev cp s cp',
    run ml (pre ++ ts) prev cp s = Some cp' ->
    exists prev' mid s', s = mid ++ s' /\ run ml ts prev' cp s' = Some cp'.
Proof.
  induction 1 as [|t pre Ht _ IH]; intros prev cp s cp'.
  { intros Hr. by exists prev, [], s. }
  destruct t; try done; cbn [app run].
  - destruct (at_bol ml prev); [apply IH | done].
  - destruct (at_eol ml s); [apply IH | done].
  - destruct s as [|c s]; [done|]. destruct (atom_ok a c); [|done].
    intros (prev' & mid & s' & -> & Hr)%IH. by exists prev', (c :: mid), s'.
  - change (run ml (TStar a :: pre ++ ts) prev cp s = Some cp' ->
            exists prev' mid s', s = mid ++ s' /\ run ml ts prev' cp s' = Some cp').
    revert prev. induction s as [|c s IHs]; intros prev; rewrite run_star_unfold.
    + apply IH.
    + destruct (atom_ok a c); [|apply IH].
      destruct (run ml (TStar a :: pre ++ ts) (Some c) cp s) as [r|] eqn:E.
      * intros [= <-]. destruct (IHs (Some c) E) as (prev' & mid & s' & -> & Hr).
        by exists prev', (c :: mid), s'.
      * apply IH.
Qed.

Lemma search_suffix ml ts prev s cp :
  search ml ts prev s = Some cp ->
  exists prev' pre s', s = pre ++ s' /\ run ml ts prev' no_caps s' = Some cp.
Proof.
  revert prev. induction s as [|c s IH]; intros prev; cbn [search].
  - destruct (run ml ts prev no_caps []) eqn:E; [|done].
    intros [= <-]. by exists prev, [], [].
  - destruct (run ml ts prev no_caps (c :: s)) eqn:E.
    + intros [= <-]. by exists prev, [], (c :: s).
    + intros (prev' & pre & s' & -> & Hr)%IH. by exists prev', (c :: pre), s'.
Qed.

(** The group [(.+)]: a non-empty run without line terminator. *)
Lemma capture_dots ml post prev cp s cp' :
  Forall plain post ->
  run ml (TOpen :: TAtom ADot :: TStar ADot :: TClose :: post) prev cp s = Some cp' ->
  exists g rest,
    s = g ++ rest /\ g <> [] /\ Forall not_terminator g /\ cap_group cp' = Some g.
Proof.
  intros Hpost Hrun.
  change (run ml (TAtom ADot :: TStar ADot :: TClose :: post) prev
            {| cap_open := Some s; cap_group := cap_group cp |} s = Some cp') in Hrun.
  destruct s as [|c s1]; [done|].
  set (cp0 := {| cap_open := Some (c :: s1); cap_group := cap_group cp |}) in Hrun.
  change ((if atom_ok ADot c
           then run ml (TStar ADot :: TClose :: post) (Some c) cp0 s1
           else None) = Some cp') in Hrun.
  cbn [atom_ok] in Hrun. destruct (isLineTerminator c) eqn:Ec; [done|]. cbn [negb] in Hrun.
  assert (Hstar : forall s prev,
             run ml (TStar ADot :: TClose :: post) prev cp0 s = Some cp' ->
             exists gap rest,
               s = gap ++ rest /\ Forall not_terminator gap
               /\ cap_group cp' = Some (firstn (length (c :: s1) - length rest) (c :: s1))).
  { induction s as [|d s IHs]; intros prev'; rewrite run_star_unfold.
    - cbn [run]. intros Hr. apply (run_keeps_caps ml post Hpost) in Hr as ->.
      by exists [], [].
    - assert (Hk : run ml (TClose :: post) prev' cp0 (d :: s) = Some cp' ->
                   exists gap rest,
                     d :: s = gap ++ rest /\ Forall not_terminator gap
                     /\ cap_group cp'
                        = Some (firstn (length (c :: s1) - length rest) (c :: s1))).
      { cbn [run]. intros Hr. apply (run_keeps_caps ml post Hpost) in Hr as ->.
        by exists [], (d :: s). }
      cbn [atom_ok]. destruct (isLineTerminator d) eqn:Ed; cbn [negb]; [exact Hk|].
      destruct (run ml (TStar ADot :: TClose :: post) (Some d) cp0 s) as [r|] eqn:E;
        [|exact Hk].
      intros [= <-]. destruct (IHs (Some d) E) as (gap & rest & -> & Hgap & Hg).
      exists (d :: gap), rest. repeat split; [by constructor | done]. }
  destruct (Hstar s1 (Some c) Hrun) as (gap & rest & -> & Hgap & Hg).
  exists (c :: gap), rest. repeat split; [done | by constructor |].
  rewrite Hg. f_equal.
  replace (length (c :: gap ++ rest) - length rest)%nat with (length (c :: gap))
    by (cbn [length]; rewrite length_app; lia).
  exact (take_app_length (c :: gap) rest).
Qed.

(** A match contains every literal of the pattern. *)
Lemma run_literal ml ts c :
  In (TAtom (AChar c)) ts ->
  forall prev cp s cp', run ml ts prev cp s = Some cp' -> In c s.
Proof.
  induction ts as [|t ts IH]; [done|]. intros Hin prev cp s cp'.
  assert (Hk : forall prev cp s cp', t <> TAtom (AChar c) ->
                 run ml ts prev cp s = Some cp' -> In c s).
  { intros ? ? ? ? Hne. destruct Hin as [->|Hin]; [done | by apply IH]. }
  destruct t; cbn [run].
  - destruct (at_bol ml prev); [by apply Hk | done].
  - destruct (at_eol ml s); [by apply Hk | done].
  - destruct s as [|d s]; [done|]. destruct (atom_ok a d) eqn:Ea; [|done].
    destruct Hin as [[= ->]|Hin].
    + cbn in Ea. apply N.eqb_eq in Ea as ->. by left.
    + intros Hr. right. by apply (IH Hin) in Hr.
  - change (run ml (TStar a :: ts) prev cp s = Some cp' -> In c s).
    revert prev. induction s as [|d s IHs]; intros prev; rewrite run_star_unfold.
    + by apply Hk.
    + destruct (atom_ok a d); [|by apply Hk].
      destruct (run ml (TStar a :: ts) (Some d) cp s) as [r|] eqn:E; [|by apply Hk].
      intros [= <-]. right. by apply (IHs (Some d)).
  - by apply Hk.
  - by apply Hk.
Qed.

Lemma match_1_literal s rx c g :
  In (TAtom (AChar c)) (terms rx) -> match_1 s rx = Some g -> In c s.
Proof.
  unfold match_1, exec. intros Hin.
  destruct (search (multiline rx) (terms rx) None s) as [cp|] eqn:E; [|done].
  intros _. apply search_suffix in E as (prev & pre & s' & -> & Hr).
  apply in_or_app. right. by apply (run_literal _ _ c Hin) in Hr.
Qed.

(** What either pattern captures: a non-empty piece of one line. *)
Lemma match_1_piece raw rx pre post g :
  terms rx = pre ++ TOpen :: TAtom ADot :: TStar ADot :: TClose :: post ->
  Forall plain pre -> Forall plain post ->
  match_1 raw rx = Some g ->
  g <> [] /\ Forall not_terminator g /\ exists a b, raw = a ++ g ++ b.
Proof.
  unfold match_1, exec. intros -> Hpre Hpost.
  destruct (search _ _ None raw) as [cp|] eqn:E; [|done]. intros Hg.
  apply search_suffix in E as (prev & a & s' & -> & Hr).
  apply (run_skip_plain _ pre _ Hpre) in Hr as (prev' & mid & s'' & -> & Hr).
  apply (capture_dots _ post _ _ _ _ Hpost) in Hr as (g' & rest & -> & Hne & Hnt & Hcap).
  rewrite Hcap in Hg. injection Hg as <-.
  split; [done|]. split; [done|]. exists (a ++ mid), rest. by rewrite <- !app_assoc.
Qed.

Lemma title_rx_piece raw g :
  match_1 raw title_rx = Some g ->
  g <> [] /\ Forall not_terminator g /\ exists a b, raw = a ++ g ++ b.
Proof.
  apply (match_1_piece raw title_rx
           [TBol; TStar ASpace;
            TAtom (AChar (ch "t")); TAtom (AChar (ch "i")); TAtom (AChar (ch "t"));
            TAtom (AChar (ch "l")); TAtom (AChar (ch "e")); TAtom (AChar (ch ":"));
            TStar ASpace]
           [TStar ASpace; TEol]); [reflexivity | |]; by repeat constructor.
Qed.

Lemma h1_rx_piece raw g :
  match_1 raw h1_rx = Some g ->
  g <> [] /\ Forall not_terminator g /\ exists a b, raw = a ++ g ++ b.
Proof.
  apply (match_1_piece raw h1_rx
           [TBol; TAtom (AChar (ch "#")); TAtom ASpace; TStar ASpace] [TEol]);
    [reflexivity | |]; by repeat constructor.
Qed.

(** X15.  The title taken from a document is either the directory name
    or the trimmed form of a piece of a single line of the document: it
    is then not empty, has no blank at either end and contains no line
    terminator. *)
Theorem title_single_line (raw dname : jsstring) :
  let t := extract_title raw dname in
  t = dname
  \/ (t <> [] /\ trimmed t /\ Forall not_terminator t
      /\ exists a g b, raw = a ++ g ++ b /\ Forall not_terminator g /\ t = trim g).
Proof.
  cbn zeta. unfold extract_title.
  assert (Hpiece : forall g,
             (g <> [] /\ Forall not_terminator g /\ exists a b, raw = a ++ g ++ b) ->
             truthy (trim g) = true ->
             trim g <> [] /\ trimmed (trim g) /\ Forall not_terminator (trim g)
             /\ exists a g' b, raw = a ++ g' ++ b /\ Forall not_terminator g'
                               /\ trim g = trim g').
  { intros g (_ & Hnt & a & b & ->) Ht. split; [by destruct (trim g)|].
    split; [apply trim_trimmed|]. split; [by apply trim_within|]. by exists a, g, b. }
  destruct (match_1 raw title_rx) as [g|] eqn:Et; cbn [fmap option_fmap option_map or_else].
  - destruct (truthy (trim g)) eqn:Ht.
    { right. apply Hpiece; [by apply title_rx_piece | done]. }
    destruct (match_1 raw h1_rx) as [h|] eqn:Eh; cbn [fmap option_fmap option_map or_else];
      [|by left].
    destruct (truthy (trim h)) eqn:Hh; [|by left].
    right. apply Hpiece; [by apply h1_rx_piece | done].
  - destruct (match_1 raw h1_rx) as [h|] eqn:Eh; cbn [fmap option_fmap option_map or_else];
      [|by left].
    destruct (truthy (trim h)) eqn:Hh; [|by left].
    right. apply Hpiece; [by apply h1_rx_piece | done].
Qed.

(** X16.  A document with no colon and no hash sign gets the directory
    name as its title. *)
Theorem title_plain_document (raw dname : jsstring) :
  ~ In (ch ":") raw -> ~ In (ch "#") raw -> extract_title raw dname = dname.
Proof.
  intros Hcolon Hhash. unfold extract_title.
  destruct (match_1 raw title_rx) as [g|] eqn:Et.
  { exfalso. apply Hcolon. apply (match_1_literal raw title_rx (ch ":") g); [|done].
    cbn. tauto. }
  destruct (match_1 raw h1_rx) as [h|] eqn:Eh; [|done].
  exfalso. apply Hhash. apply (match_1_literal raw h1_rx (ch "#") h); [|done].
  cbn. tauto.
Qed.

Lemma title_plain_document_witness :
  extract_title (str "just some text") (str "talk1") = str "talk1".
Proof.
  apply (title_plain_document (str "just some text") (str "talk1"));
    vm_compute; intuition discriminate.
Defined.

(** X17.  Reading a title never aborts and never changes the world or the
    trace; when the deck has no entry or its entry cannot be read, the
    title is the directory name. *)
Theorem deck_title_total {W : Type} (H : Host W) (d : Deck) (st : state W) :
  exists t,
    deck_title H d st = (Ret t, st)
    /\ (entry d = None
        \/ (exists e message,
              entry d = Some e
              /\ readFileSync H (world st) (join H (path d) e) = inl message) ->
        t = name d).
Proof.
  exists (title_in H (world st) d). split; [apply deck_title_eq|].
  unfold title_in. intros [->|(e & message & -> & ->)]; done.
Qed.

Lemma deck_title_total_witness :
  let H := Sim.host (Sim.always (Some 0%Z)) in
  let d := Sim.deck_record "gone" in
  exists t, deck_title H d (Sim.start Inputs.three_talks) = (Ret t, Sim.start Inputs.three_talks)
            /\ t = str "gone".
Proof.
  cbn zeta.
  destruct (deck_title_total (Sim.host (Sim.always (Some 0%Z))) (Sim.deck_record "gone")
              (Sim.start Inputs.three_talks)) as (t & Ht & Hname).
  exists t. split; [exact Ht|]. apply Hname. right.
  exists (str "slides.md"), Sim.enoent. split; vm_compute; reflexivity.
Defined.

End TitleMore.

(** ** More on the dev launcher *)

Module DevMore.
Import ListFacts BuildAll BatchSpec DevSpec MoreSpec EntryFacts.

Section Facts.
Context {W : Type} (H : Host W) (P : process).

(** X18.  When the renderer ends with a numeric code, the launcher
    exits with exactly that code.  Its whole output is the "Starting"
    line, and the renderer was run as [npx -y slidev <deck>/<entry>] in
    the working directory, with the launcher's environment unchanged. *)
Theorem dev_mirrors_exit_code (w w' : W) (n e : jsstring) (c : Z) :
  Dev.deckName P = Some n -> truthy n = true ->
  existsSync H w (join H (Dev.SLIDES_DIR H P) n) = true ->
  findEntry H w (join H (Dev.SLIDES_DIR H P) n) = inr (Some e) ->
  spawn H w (Dev.serve_call H P (join H (Dev.SLIDES_DIR H P) n) e) = (w', Some c) ->
  let out := run_script (Dev.script H P) w in
  status out = c
  /\ exists call,
       trace (final out) = [Log (starting_message n e); Spawn call (Some c)]
       /\ cmd call = str "npx"
       /\ args call
          = [Some (str "-y"); Some (str "slidev");
             Some (join H (join H (join H (cwd P) (str "slides")) n) e)]
       /\ opt_cwd call = cwd P
       /\ opt_env call = env P.
Proof.
  intros Hn Ht Hex He Hs. cbn zeta. unfold run_script.
  rewrite (dev_resolved H P {| world := w; trace := [] |} n Hn Ht Hex).
  cbn [world trace]. cbn zeta. rewrite He, Hs. cbn [status final trace app default from_option id].
  split; [done|]. by eexists.
Qed.

Lemma deckName_cases :
  falsy (Dev.deckName P) = true
  \/ exists n, Dev.deckName P = Some n /\ truthy n = true.
Proof.
  destruct (Dev.deckName P) as [n|]; [|by left]. cbn.
  destruct (truthy n) eqn:E; [right; by exists n | by left].
Qed.

(** X19.  The dev launcher never makes a directory or writes a file and
    spawns at most one child.  Either it spawns none, ends its output
    with a line on the diagnostic stream and exits with 1, or it spawns
    one, says nothing after it and exits with what [process.exit] makes
    of the child's code. *)
Theorem dev_outcomes (w : W) :
  let out := run_script (Dev.script H P) w in
  let tr := trace (final out) in
  Forall harmless tr
  /\ ((spawns tr = [] /\ status out = 1%Z /\ exists line, last tr = Some (Err line))
      \/ exists call code,
           spawns tr = [(call, code)] /\ last tr = Some (Spawn call code)
           /\ status out = default 0%Z code).
Proof.
  cbn zeta. unfold run_script.
  destruct deckName_cases as [Hn|(n & Hn & Ht)].
  { rewrite (dev_no_name H P _ Hn). cbn [status final trace app].
    split; [by repeat constructor|]. left. repeat split. by eexists. }
  destruct (existsSync H w (join H (Dev.SLIDES_DIR H P) n)) eqn:Hex.
  - rewrite (dev_resolved H P {| world := w; trace := [] |} n Hn Ht Hex).
    cbn [world trace]. cbn zeta.
    destruct (findEntry H w _) as [e|[e|]].
    + cbn [status final trace app]. split; [by repeat constructor|].
      left. repeat split. by eexists.
    + destruct (spawn H w _) as [w' code]. cbn [status final trace app].
      split; [by repeat constructor|]. right.
      by exists (Dev.serve_call H P (join H (Dev.SLIDES_DIR H P) n) e), code.
    + cbn [status final trace app]. split; [by repeat constructor|].
      left. repeat split. by eexists.
  - rewrite (dev_no_folder H P {| world := w; trace := [] |} n Hn Ht Hex).
    cbn [status final trace app]. split; [by repeat constructor|].
    left. repeat split. by eexists.
Qed.

(** X20.  [DECK] stands in for the argument: with no argument, or an
    empty one, and [DECK] set to [n], the launcher behaves exactly as
    when [n] is passed as its argument. *)
Theorem dev_env_fallback (n : jsstring) (st : state W) :
  falsy (argv P !! 2%nat) = true ->
  env P !! str "DECK" = Some n ->
  Dev.script H P st = Dev.script H (with_argument P n) st.
Proof.
  intros Ha He.
  assert (Hl : Dev.deckName P = Some n) by (unfold Dev.deckName; by rewrite Ha).
  assert (Hr : Dev.deckName (with_argument P n) = Some n).
  { unfold Dev.deckName. cbn [with_argument argv env]. rewrite He.
    change ([str "node"; str "dev.mjs"; n] !! 2%nat) with (Some n).
    by destruct (falsy (Some n)). }
  unfold Dev.script. rewrite Hl, Hr. reflexivity.
Qed.

End Facts.

Lemma dev_mirrors_exit_code_witness :
  status (run_script (Dev.script (Sim.host (Sim.always (Some 3%Z))) Inputs.talk_proc)
            Inputs.three_talks) = 3%Z.
Proof.
  refine (proj1 (dev_mirrors_exit_code (Sim.host (Sim.always (Some 3%Z))) Inputs.talk_proc
                   Inputs.three_talks Inputs.three_talks (str "talk1") (str "slides.md")
                   3%Z _ _ _ _ _));
    vm_compute; reflexivity.
Defined.

Lemma dev_env_fallback_witness :
  let H := Sim.host (Sim.always (Some 0%Z)) in
  let P := Sim.proc {[ str "DECK" := str "talk1" ]} [str "node"; str "dev.mjs"] in
  Dev.script H P (Sim.start Inputs.three_talks)
  = Dev.script H (with_argument P (str "talk1")) (Sim.start Inputs.three_talks).
Proof.
  apply (dev_env_fallback (Sim.host (Sim.always (Some 0%Z)))
           (Sim.proc {[ str "DECK" := str "talk1" ]} [str "node"; str "dev.mjs"])
           (str "talk1") (Sim.start Inputs.three_talks));
    vm_compute; reflexivity.
Defined.

End DevMore.
